(** * bibxml-service: relaxed normalization of bibliographic records

    A shallow embedding of [bib_models/util.py]: the field normalizers,
    [normalize_relaxed], [construct_bibitem] and [get_primary_docid],
    together with the properties the specification states about them.

    Deserialized records are trees of Python values.  Python exceptions
    are explicit results ([Raise]); code that mutates its argument in
    place is a function from the object before the call to the object
    after it, paired with the way the call ended. *)

From Stdlib Require Import String Ascii ZArith List Bool Lia.
From stdpp Require Import base decidable countable gmap sets strings.
Import ListNotations.
Local Open Scope string_scope.
Set Warnings "-register-all".

(** ** Python values *)

(** What [json]/[yaml] deserialization produces: [None], booleans,
    integers, strings, lists and dicts with string keys.  A dict keeps its
    insertion order, so it is an association list. *)
Inductive value : Type :=
| VNone
| VBool (b : bool)
| VInt (z : Z)
| VStr (s : string)
| VList (items : list value)
| VDict (entries : list (string * value)).

Definition dict : Type := list (string * value).

(** Exceptions the code can meet.  [ValidationError] carries what
    [e.errors()] returns. *)
Inductive exn : Type :=
| TypeError
| AttributeError
| KeyError
| IndexError
| RecursionError
| ValidationError (errors : list value).

(** How a call ends: it returns a value or raises. *)
Inductive outcome (A : Type) : Type :=
| Ok (a : A)
| Raise (e : exn).
Arguments Ok {A} a.
Arguments Raise {A} e.

Definition bind {A B : Type} (m : outcome A) (f : A -> outcome B) : outcome B :=
  match m with
  | Ok a => f a
  | Raise e => Raise e
  end.

Declare Scope py_scope.
Delimit Scope py_scope with py.
Notation "x <- m ;; k" := (bind m (fun x => k))
  (at level 100, m at next level, right associativity) : py_scope.
Local Open Scope py_scope.

(** [bool(v)]. *)
Definition truthy (v : value) : bool :=
  match v with
  | VNone => false
  | VBool b => b
  | VInt z => negb (z =? 0)%Z
  | VStr s => negb (String.eqb s "")
  | VList l => match l with [] => false | _ :: _ => true end
  | VDict d => match d with [] => false | _ :: _ => true end
  end.

(** [v == s] for a string literal [s]. *)
Definition eq_str (v : value) (s : string) : bool :=
  match v with
  | VStr s' => String.eqb s' s
  | _ => false
  end.

(** *** Dicts *)

(** [d.get(k)], as an option. *)
Fixpoint dict_get (d : dict) (k : string) : option value :=
  match d with
  | [] => None
  | (k', v) :: rest => if String.eqb k' k then Some v else dict_get rest k
  end.

(** [k in d]. *)
Definition dict_mem (d : dict) (k : string) : bool :=
  match dict_get d k with Some _ => true | None => false end.

(** [d[k] = v]: an existing key keeps its place, a new key goes last. *)
Fixpoint dict_set (d : dict) (k : string) (v : value) : dict :=
  match d with
  | [] => [(k, v)]
  | (k', v') :: rest =>
      if String.eqb k' k then (k', v) :: rest else (k', v') :: dict_set rest k v
  end.

(** [{**d1, **d2}]: the entries of [d2] are assigned into [d1] in order. *)
Definition dict_update (d1 d2 : dict) : dict :=
  fold_left (fun acc kv => dict_set acc (fst kv) (snd kv)) d2 d1.

(** [obj.get(k, default)]; only dicts have [get]. *)
Definition py_get (obj : value) (k : string) (default : value) : outcome value :=
  match obj with
  | VDict d => Ok (match dict_get d k with Some v => v | None => default end)
  | _ => Raise AttributeError
  end.

(** [d[k]] on a dict. *)
Definition dict_getitem (d : dict) (k : string) : outcome value :=
  match dict_get d k with
  | Some v => Ok v
  | None => Raise KeyError
  end.

(** [dict(content='', **fname)]: a keyword given twice is a [TypeError]. *)
Definition dict_call_content (fname : dict) : outcome value :=
  if dict_mem fname "content" then Raise TypeError
  else Ok (VDict (("content", VStr "") :: fname)).

(** The items a [for] loop or a comprehension sees: the elements of a
    list, the characters of a string, the keys of a dict; anything else
    is not iterable. *)
Fixpoint chars (s : string) : list value :=
  match s with
  | EmptyString => []
  | String c rest => VStr (String c EmptyString) :: chars rest
  end.

Definition py_iter (v : value) : outcome (list value) :=
  match v with
  | VList l => Ok l
  | VStr s => Ok (chars s)
  | VDict d => Ok (map (fun kv => VStr (fst kv)) d)
  | _ => Raise TypeError
  end.

(** A list comprehension [[f(x) for x in l]]: the first exception ends it. *)
Fixpoint comprehension {A B : Type} (f : A -> outcome B) (l : list A) : outcome (list B) :=
  match l with
  | [] => Ok []
  | x :: rest =>
      y <- f x ;;
      ys <- comprehension f rest ;;
      Ok (y :: ys)
  end.

(** Modelled from the spec: [common.util.as_list] is imported by the
    module but is not part of the sources.  The spec has a value "wrapped
    into a list if given as a single value": a list is returned as it is,
    any other value becomes a one-element list, and [None], which is no
    value, gives the empty list. *)
Definition as_list (v : value) : list value :=
  match v with
  | VList l => l
  | VNone => []
  | _ => [v]
  end.

Definition nonempty {A : Type} (l : list A) : bool :=
  match l with [] => false | _ :: _ => true end.

(** ** Field normalizers *)

Section Code.

(** The builtin [str]. Its output format plays no role below; on the
    values above it always returns. *)
Variable py_str : value -> string.

(** [to_plain_string] *)
Definition to_plain_string (raw : value) : outcome value :=
  match raw with
  | VStr _ => Ok raw
  | VDict _ =>
      content <- py_get raw "content" VNone ;;
      if truthy content then Ok (VStr (py_str content))
      else Ok (VStr (py_str raw))
  | _ => Ok (VStr (py_str raw))
  end.

(** [normalize_role] *)
Definition normalize_role (raw : value) : outcome value :=
  match raw with
  | VStr _ => Ok (VDict [("type", raw)])
  | VDict d =>
      if dict_mem d "type" || dict_mem d "description" then Ok raw
      else Ok (VDict [("description", VStr (py_str raw))])
  | _ => Ok (VDict [("description", VStr (py_str raw))])
  end.


(** [ensure_formatted_string_content] *)
Definition ensure_formatted_string_content (fname : value) : outcome value :=
  content <- py_get fname "content" VNone ;;
  if negb (truthy content) then
    match fname with
    | VDict d => dict_call_content d
    | _ => Raise TypeError
    end
  else Ok fname.

(** [normalize_version] *)
Definition normalize_version (raw : value) : outcome value :=
  match raw with
  | VStr _ => Ok (VDict [("draft", raw)])
  | _ => Raise TypeError
  end.

(** [normalize_contact]; Python's [None] result is [VNone]. *)
Definition normalize_contact (raw : value) : outcome value :=
  match raw with
  | VDict d =>
      _type <- py_get raw "type" VNone ;;
      typed <-
        (if truthy _type && dict_mem d "value" then
           value <- dict_getitem d "value" ;;
           if truthy value then
             if eq_str _type "email" then Ok (Some (VDict [("email", value)]))
             else if eq_str _type "uri" || eq_str _type "url" then
               Ok (Some (VDict [("uri", value)]))
             else if eq_str _type "phone" then
               Ok (Some (VDict [("phone", VDict [("content", value)])]))
             else Ok None
           else Ok (Some VNone)
         else Ok None) ;;
      match typed with
      | Some result => Ok result
      | None =>
          if dict_mem d "city" || dict_mem d "country" then
            Ok (VDict [("address", raw)])
          else
            match dict_get d "phone" with
            | Some (VStr s) => Ok (VDict [("phone", VDict [("content", VStr s)])])
            | _ => Ok raw
            end
      end
  | _ => Raise TypeError
  end.

(** ** Code that mutates its argument *)

(** A procedure working on one mutable object: from the object as it is
    before, to the object as it is after and the way the procedure ended.
    What was assigned before an exception stays assigned.  Records are
    trees: no object is reachable along two paths. *)
Definition proc (A : Type) : Type := value -> value * outcome A.

Definition ret {A : Type} (a : A) : proc A := fun obj => (obj, Ok a).

Definition seq {A B : Type} (m : proc A) (f : A -> proc B) : proc B :=
  fun obj =>
    let (obj', r) := m obj in
    match r with
    | Ok a => f a obj'
    | Raise e => (obj', Raise e)
    end.

Notation "x <~ m ;; k" := (seq m (fun x => k))
  (at level 100, m at next level, right associativity) : py_scope.
Notation "m ;;; k" := (seq m (fun _ => k))
  (at level 100, right associativity) : py_scope.

(** A computation that does not touch the object. *)
Definition lift {A : Type} (r : outcome A) : proc A := fun obj => (obj, r).

(** [obj.get(k, default)] on the object at hand. *)
Definition get_ (k : string) (default : value) : proc value :=
  fun obj => (obj, py_get obj k default).

(** [obj[k] = v] on the object at hand. *)
Definition setitem (k : string) (v : value) : proc unit :=
  fun obj =>
    match obj with
    | VDict d => (VDict (dict_set d k v), Ok tt)
    | _ => (obj, Raise TypeError)
    end.

(** [try: m except Exception: pass]. *)
Definition try_pass (m : proc unit) : proc unit :=
  fun obj =>
    let (obj', r) := m obj in
    (obj', Ok tt).

(** [obj[k]] now refers to [child'], if [obj] is a dict with key [k]. *)
Definition store (k : string) (child' : value) (obj : value) : value :=
  match obj with
  | VDict d => if dict_mem d k then VDict (dict_set d k child') else obj
  | _ => obj
  end.

(** The object that [obj.get(k, default)] returned, as it is now: what
    [obj] holds under [k], or the [default], which nothing else refers to. *)
Definition held (k : string) (default : value) (obj : value) : value :=
  match obj with
  | VDict d => match dict_get d k with Some child => child | None => default end
  | _ => default
  end.

(** Runs [m] on the object that [obj.get(k, default)] returned: what [m]
    does to it is seen under [obj[k]] afterwards. *)
Definition in_place {A : Type} (k : string) (default : value) (m : proc A) : proc A :=
  fun obj =>
    let (child', r) := m (held k default obj) in
    (store k child' obj, r).

(** A [for] loop whose body mutates the item at hand; the first exception
    ends the loop, leaving the later items as they were. *)
Fixpoint for_each (body : proc unit) (items : list value) : list value * outcome unit :=
  match items with
  | [] => ([], Ok tt)
  | item :: rest =>
      let (item', r) := body item in
      match r with
      | Ok _ => let (rest', r') := for_each body rest in (item' :: rest', r')
      | Raise e => (item' :: rest, Raise e)
      end
  end.

(** The items mutated by a loop belong to the iterated object only when
    that object is a list; the characters of a string and the keys of a
    dict are values of their own. *)
Definition store_items (iterated : value) (items' : list value) : value :=
  match iterated with
  | VList _ => VList items'
  | _ => iterated
  end.

(** ** [normalize_relaxed] *)

(** Lines 113-121: the version step. *)
Definition normalize_versions (versions : list value) : outcome (list value) :=
  comprehension
    (fun item => match item with VStr _ => normalize_version item | _ => Ok item end)
    versions.

Definition step_version : proc unit :=
  version <~ get_ "version" (VList []) ;;
  let versions := as_list version in
  if nonempty versions then
    try_pass (normalized <~ lift (normalize_versions versions) ;;
              setitem "version" (VList normalized))
  else ret tt.

(** Lines 123-127: the edition step. *)
Definition step_edition : proc unit :=
  edition <~ get_ "edition" VNone ;;
  if truthy edition then
    match edition with
    | VStr _ => setitem "edition" (VDict [("content", edition)])
    | _ => ret tt
    end
  else ret tt.

(** Lines 129-133: the keyword step. *)
Definition step_keyword : proc unit :=
  keywords <~ get_ "keyword" (VList []) ;;
  if truthy keywords then
    items <~ lift (py_iter keywords) ;;
    plain <~ lift (comprehension to_plain_string items) ;;
    setitem "keyword" (VList plain)
  else ret tt.

(** Lines 142-155, on [person_or_org]. *)
Definition normalize_contacts (contacts : list value) : outcome (list value) :=
  normalized <-
    comprehension normalize_contact
      (List.filter (fun item => match item with VDict _ => true | _ => false end) contacts) ;;
  Ok (List.filter (fun n => match n with VNone => false | _ => true end) normalized).

Definition adapt_contacts : proc unit :=
  contact <~ get_ "contact" (VList []) ;;
  let contacts := as_list contact in
  if nonempty contacts then
    try_pass (normalized <~ lift (normalize_contacts contacts) ;;
              setitem "contact" (VList normalized))
  else ret tt.

(** Lines 159-166, on [gname]. *)
Definition normalize_given : proc unit :=
  forename <~ get_ "forename" (VList []) ;;
  let fnames := as_list forename in
  (if nonempty fnames then
     ensured <~ lift (comprehension ensure_formatted_string_content fnames) ;;
     setitem "forename" (VList ensured)
   else ret tt) ;;;
  fi <~ get_ "formatted_initials" VNone ;;
  if truthy fi then
    ensured <~ lift (ensure_formatted_string_content fi) ;;
    setitem "formatted_initials" ensured
  else ret tt.

(** Lines 158-166, on [person]. *)
Definition adapt_given_name : proc unit :=
  name <~ get_ "name" (VDict []) ;;
  gname <~ lift (py_get name "given" VNone) ;;
  if truthy gname then
    in_place "name" (VDict []) (in_place "given" VNone normalize_given)
  else ret tt.

(** Lines 168-169, on [contributor]. *)
Definition normalize_roles : proc unit :=
  role <~ get_ "role" VNone ;;
  let roles := as_list (if truthy role then role else VList []) in
  if nonempty roles then
    normalized <~ lift (comprehension normalize_role roles) ;;
    setitem "role" (VList normalized)
  else ret tt.

(** Lines 136-169: the body of the loop over contributors. *)
Definition normalize_contributor : proc unit :=
  person <~ get_ "person" VNone ;;
  org <~ get_ "organization" VNone ;;
  (if truthy person || truthy org then
     (if truthy person then in_place "person" VNone adapt_contacts
      else in_place "organization" VNone adapt_contacts) ;;;
     (if truthy person then in_place "person" VNone adapt_given_name
      else ret tt)
   else ret tt) ;;;
  normalize_roles.

(** Lines 135-169: the contributor step. *)
Definition step_contributor : proc unit :=
  contributors <~ get_ "contributor" (VList []) ;;
  items <~ lift (py_iter contributors) ;;
  fun data =>
    let (items', r) := for_each normalize_contributor items in
    (store "contributor" (store_items contributors items') data, r).

(** Lines 172-179: the comprehension over the relations.  The result is
    the relations as the calls left them, and the new list (or the
    exception that ended the comprehension).  [self] is
    [normalize_relaxed]; its result is the bibitem it was given, which is
    also what [r] holds under "bibitem" when [**r] is unpacked. *)
Fixpoint relation_comprehension (self : value -> value * outcome value)
    (relations : list value) : list value * outcome (list value) :=
  match relations with
  | [] => ([], Ok [])
  | r :: rest =>
      match py_get r "bibitem" VNone with
      | Raise e => (r :: rest, Raise e)
      | Ok bibitem =>
          if truthy bibitem then
            let (bibitem', res) := self bibitem in
            let r' := store "bibitem" bibitem' r in
            match res, r' with
            | Raise e, _ => (r' :: rest, Raise e)
            | Ok returned, VDict entries =>
                let entry := VDict (dict_update [("bibitem", returned)] entries) in
                let (rest', res') := relation_comprehension self rest in
                (r' :: rest',
                 match res' with
                 | Ok out => Ok (entry :: out)
                 | Raise e => Raise e
                 end)
            | Ok _, _ => (r' :: rest, Raise TypeError)
            end
          else
            let (rest', res') := relation_comprehension self rest in
            (r :: rest', res')
      end
  end.

(** Lines 171-179: the relation step. *)
Definition step_relation (self : value -> value * outcome value) : proc unit :=
  relations <~ get_ "relation" (VList []) ;;
  if truthy relations then
    items <~ lift (py_iter relations) ;;
    fun data =>
      let (items', res) := relation_comprehension self items in
      match res with
      | Ok out => setitem "relation" (VList out) data
      | Raise e => (store "relation" (store_items relations items') data, Raise e)
      end
  else ret tt.

(** Lines 113-169: what comes before the relation step. *)
Definition before_relations : proc unit :=
  step_version ;;;
  step_edition ;;;
  step_keyword ;;;
  step_contributor.

(** Lines 100-181, with the recursive call as a parameter. *)
Definition normalize_relaxed_body (self : value -> value * outcome value)
  : value -> value * outcome value :=
  step_version ;;;
  step_edition ;;;
  step_keyword ;;;
  step_contributor ;;;
  step_relation self ;;;
  (fun data => (data, Ok data)).

(** The recursion follows the nesting of bibitems inside relations; [n]
    bounds the depth of the calls, as the interpreter's recursion limit
    does. *)
Fixpoint normalize_relaxed_upto (n : nat) : value -> value * outcome value :=
  match n with
  | O => fun data => (data, Raise RecursionError)
  | S n' => normalize_relaxed_body (normalize_relaxed_upto n')
  end.

(** Nesting depth of a value. *)
Fixpoint depth (v : value) : nat :=
  match v with
  | VList l => S (fold_right (fun x acc => Nat.max (depth x) acc) O l)
  | VDict d => S (fold_right (fun kv acc => Nat.max (depth (snd kv)) acc) O d)
  | _ => O
  end.

(** [normalize_relaxed]: the calls nest no deeper than the record, so the
    bound is never met (see [normalize_relaxed_upto_enough]). *)
Definition normalize_relaxed (data : value) : value * outcome value :=
  normalize_relaxed_upto (S (depth data)) data.

(** ** [construct_bibitem] *)

(** The schema library, as the module uses it:
    the class called on the unpacked [data], which validates and may
    raise, and its [construct] method, which does not validate. *)
Variable BibliographicItem : Type.
Variable BibliographicItem_init : value -> outcome BibliographicItem.
Variable BibliographicItem_construct : value -> BibliographicItem.

(** What [log.warn] receives at line 55. *)
Inductive bibitem_warning : Type :=
| UnexpectedFormat (docid : value) (e : exn).

(** The result of a call: [data] after the call, the warnings logged,
    and the returned pair or the exception raised. *)
Definition construct_bibitem (data : value) (strict : bool)
  : value * list bibitem_warning * outcome (BibliographicItem * option (list value)) :=
  let errors : option (list value) := None in
  let (data', _) := normalize_relaxed data in
  if strict then
    (data', [], bibitem <- BibliographicItem_init data' ;; Ok (bibitem, errors))
  else
    match BibliographicItem_init data' with
    | Ok bibitem => (data', [], Ok (bibitem, errors))
    | Raise (ValidationError errs) =>
        match py_get data' "docid" (VStr "docid N/A") with
        | Ok docid =>
            (data', [UnexpectedFormat docid (ValidationError errs)],
             Ok (BibliographicItem_construct data', Some errs))
        | Raise e => (data', [], Raise e)
        end
    | Raise e => (data', [], Raise e)
    end.

End Code.

(** ** [get_primary_docid] *)

(** [relaton.models.bibdata.DocID], as far as the module reads it: four
    attributes, each of which may be [None]. *)
Module DocID.
Record t : Type := mk {
  id : option string;
  type : option string;
  scope : option string;
  primary : option bool
}.
End DocID.

(** The condition of the comprehension at lines 74-83. *)
Definition is_primary (docid : DocID.t) : bool :=
  forallb (fun b : bool => b)
    [ match DocID.primary docid with Some true => true | _ => false end;
      match DocID.id docid with Some _ => true | None => false end;
      match DocID.type docid with Some _ => true | None => false end;
      match DocID.scope docid with None => true | Some _ => false end ].

(** [frozenset([id.id, id.type])] *)
Definition id_type_set (docid : DocID.t) : gset (option string) :=
  list_to_set [DocID.id docid; DocID.type docid].

(** What [log.warn] receives at line 88. *)
Inductive docid_warning : Type :=
| UnexpectedPrimaryCount (raw_ids : list DocID.t) (found : nat).

Definition deduped (primary_docids : list DocID.t) : gset (gset (option string)) :=
  list_to_set (map id_type_set primary_docids).

(** The result of a call: the returned identifier, if any, and the
    warnings logged. *)
Definition get_primary_docid (raw_ids : list DocID.t)
  : option DocID.t * list docid_warning :=
  let primary_docids := List.filter is_primary raw_ids in
  let warnings :=
    if Nat.eqb (size (deduped primary_docids)) 1 then []
    else [UnexpectedPrimaryCount raw_ids (length primary_docids)] in
  match primary_docids with
  | first :: _ => (Some first, warnings)
  | [] => (None, warnings)
  end.

(** ** [main/util.py]: the query of a citation search

    [BaseCitationSearchView], as far as it parses the query of a request
    and picks the handler.  Django, the search index and the cache are not
    modelled: what the view takes from them is a parameter. *)

Module SearchView.

Inductive exn : Type :=
| TypeError
| AttributeError
| ValueError
| UnsupportedQueryFormat.

(** [except ValueError] also catches [UnsupportedQueryFormat], its
    subclass (lines 228-230). *)
Definition is_ValueError (e : exn) : bool :=
  match e with
  | ValueError | UnsupportedQueryFormat => true
  | _ => false
  end.

Inductive result (A : Type) : Type :=
| Returns (a : A)
| Raises (e : exn).
Arguments Returns {A} a.
Arguments Raises {A} e.

(** A deserialized query: the string itself, or the structure that
    [json.loads] made of it. *)
Inductive parsed_query : Type :=
| Repr (query : string)
| Struct (struct : value).

(** The attributes of the view that the code assigns or tests. *)
Record view : Type := mk_view {
  query_in_path : bool;
  query : option parsed_query;
  query_format : option string
}.

(** A request: what [request.GET.get(name, None)] returns. *)
Record request : Type := mk_request {
  GET : string -> option string
}.

(** Lines 51-54. *)
Definition supported_query_formats : list string := ["json_repr"; "json_struct"].

(** A method, by the number of arguments it takes besides [self]. *)
Inductive method : Type :=
| Unary (f : string -> result parsed_query)
| Binary (f : string -> string -> result parsed_query).

(** [m(arg)]: a method called with one argument. *)
Definition call (m : method) (arg : string) : result parsed_query :=
  match m with
  | Unary f => f arg
  | Binary _ => Raises TypeError
  end.

Section View.

(** [str.lower], [urllib.parse.unquote_plus], [str.strip]; [json.loads],
    with [None] for a [JSONDecodeError]. *)
Variable lower : string -> string.
Variable unquote_plus : string -> string.
Variable strip : string -> string.
Variable json_loads : string -> option value.

(** Lines 186-187. *)
Definition parse_unsupported_query (query_format query : string) : result parsed_query :=
  Raises UnsupportedQueryFormat.

(** Lines 189-190. *)
Definition parse_json_repr_query (query : string) : result parsed_query :=
  Returns (Repr query).

(** Lines 214-220. *)
Definition parse_json_struct_query (query : string) : result parsed_query :=
  match json_loads query with
  | Some struct => Returns (Struct struct)
  | None => Raises ValueError
  end.

(** [getattr(self, 'parse_%s_query' % format, self.parse_unsupported_query)],
    lines 161-164: the view has the parsers of lines 186-190 and 214-220;
    for any other name the default is returned. *)
Definition parser_named (format : string) : method :=
  if String.eqb format "json_repr" then Unary parse_json_repr_query
  else if String.eqb format "json_struct" then Unary parse_json_struct_query
  else Binary parse_unsupported_query.

(** Lines 152-155: the query of the request, if any. *)
Definition request_query (self : view) (req : request) (kwargs : string -> option string)
  : option string :=
  if negb (query_in_path self) then GET req "query"
  else Some (strip (unquote_plus (match kwargs "query" with Some q => q | None => "" end))).

(** Lines 143-173: the view after the call, and how the call ended. *)
Definition dispatch_parse_query (self : view) (req : request)
    (kwargs : string -> option string) : view * result unit :=
  let query_format := match GET req "query_format" with Some f => f | None => "json_repr" end in
  match request_query self req kwargs with
  | Some (String c rest) =>
      let parser :=
        if existsb (String.eqb (lower query_format)) supported_query_formats
        then parser_named (lower query_format)
        else Binary parse_unsupported_query in
      match call parser (String c rest) with
      | Returns parsed =>
          (mk_view (query_in_path self) (Some parsed) (Some query_format), Returns tt)
      | Raises e => (self, Raises e)
      end
  | _ => (mk_view (query_in_path self) None None, Returns tt)
  end.

(** The responses of [get]: a 400 with its body, or what the parent
    class answers. *)
Variable response : Type.
Variable HttpResponseBadRequest : string -> response.
Variable super_get : view -> view * result response.

(** Lines 73-81. *)
Definition get (self : view) (req : request) (kwargs : string -> option string)
  : view * result response :=
  match dispatch_parse_query self req kwargs with
  | (self', Returns _) => super_get self'
  | (self', Raises UnsupportedQueryFormat) =>
      (self', Returns (HttpResponseBadRequest "Unsupported query format"))
  | (self', Raises e) =>
      if is_ValueError e
      then (self', Returns (HttpResponseBadRequest "Unable to parse query"))
      else (self', Raises e)
  end.

(** The handlers (lines 192-225) query the search index. *)
Variable QuerySet : Type.
Variable handle_json_repr_query : parsed_query -> QuerySet.
Variable handle_json_struct_query : parsed_query -> QuerySet.

(** Lines 175-184: [getattr] without a default raises [AttributeError]
    when the view has no method of that name. *)
Definition dispatch_handle_query (self : view) (query : parsed_query) : result QuerySet :=
  match query_format self with
  | Some format =>
      if String.eqb format "json_repr" then Returns (handle_json_repr_query query)
      else if String.eqb format "json_struct" then Returns (handle_json_struct_query query)
      else Raises AttributeError
  | None => Raises AttributeError
  end.

End View.

(** A stand-in for [str.lower] in the examples: lowers the ASCII letters. *)
Definition lower_ascii_char (c : ascii) : ascii :=
  let n := nat_of_ascii c in
  if (65 <=? n)%nat && (n <=? 90)%nat then ascii_of_nat (n + 32) else c.

Fixpoint lower_ascii (s : string) : string :=
  match s with
  | EmptyString => EmptyString
  | String c rest => String (lower_ascii_char c) (lower_ascii rest)
  end.

End SearchView.

(** ** Definitions used to state the properties *)

(** A relation entry is kept by [normalize_relaxed] when it holds a
    truthy value under "bibitem". *)
Definition has_truthy_bibitem (r : value) : bool :=
  match r with
  | VDict entries =>
      match dict_get entries "bibitem" with
      | Some bibitem => truthy bibitem
      | None => false
      end
  | _ => false
  end.

(** What the relation step puts in the place of a kept entry [r]: "bibitem"
    first, holding the normalized bibitem, then the other keys of [r]. *)
Definition rebuilt_relation (py_str : value -> string) (r : value) : value :=
  match r with
  | VDict entries =>
      match dict_get entries "bibitem" with
      | Some bibitem =>
          let bibitem' := fst (normalize_relaxed py_str bibitem) in
          VDict (dict_update [("bibitem", bibitem')] (dict_set entries "bibitem" bibitem'))
      | None => r
      end
  | _ => r
  end.

(** [recognized t]: [t] is one of the contact types with a rule of its own. *)
Definition recognized (t : value) : bool :=
  eq_str t "email" || eq_str t "uri" || eq_str t "url" || eq_str t "phone".

(** [typed_rule_applies d]: the mapping has a truthy type and a value
    which is falsy or goes with a recognized type, so that one of the
    type/value rules decides. *)
Definition typed_rule_applies (d : dict) : bool :=
  match dict_get d "type", dict_get d "value" with
  | Some t, Some v => truthy t && (negb (truthy v) || recognized t)
  | _, _ => false
  end.

(** An identifier flagged primary, with an id and a type and no scope. *)
Definition primary_docid (id type : string) : DocID.t :=
  DocID.mk (Some id) (Some type) None (Some true).

(** A record whose only contributor is a person with one forename, given
    as an empty mapping. *)
Definition record_with_empty_forename : value :=
  VDict [("contributor",
          VList [VDict [("person",
                         VDict [("name",
                                 VDict [("given",
                                         VDict [("forename", VList [VDict []])])])])]])].

(** [frame k obj obj']: a dict [obj] is still a dict in [obj'], with the
    same value (or none) under [k]. *)
Definition frame (k : string) (obj obj' : value) : Prop :=
  forall d, obj = VDict d ->
    exists d', obj' = VDict d' /\ dict_get d' k = dict_get d k.

(** A procedure that leaves key [k] of its object alone. *)
Definition frames {A : Type} (k : string) (m : proc A) : Prop :=
  forall obj, frame k obj (fst (m obj)).

(** A stand-in for [str] where an example needs one; the examples do not
    depend on what it returns. *)
Definition str_of_example : value -> string := fun _ => "<str>".

(** A toy schema for the examples: a record needs a "docid". *)
Definition toy_schema (data : value) : outcome value :=
  match data with
  | VDict d =>
      if dict_mem d "docid" then Ok data
      else Raise (ValidationError [VDict [("loc", VStr "docid"); ("msg", VStr "field required")]])
  | _ => Raise TypeError
  end.

(** A role mapping names its type or gives a description. *)
Definition names_type_or_description (d : dict) : bool :=
  dict_mem d "type" || dict_mem d "description".

(** The contact has a truthy type and, under "value", a falsy value. *)
Definition typed_without_value (d : dict) : bool :=
  match dict_get d "type", dict_get d "value" with
  | Some t, Some v => truthy t && negb (truthy v)
  | _, _ => false
  end.

Definition is_mapping (v : value) : bool :=
  match v with VDict _ => true | _ => false end.

Definition is_string (v : value) : bool :=
  match v with VStr _ => true | _ => false end.

(** A version entry after the version step: a string is wrapped as a
    draft, anything else is left alone. *)
Definition draft_of_string (item : value) : value :=
  match item with
  | VStr _ => VDict [("draft", item)]
  | _ => item
  end.

(** The value under "version" after the version step. *)
Definition normalized_version (version : value) : value :=
  if nonempty (as_list version) then VList (map draft_of_string (as_list version))
  else version.

(** The value under "edition" after the edition step. *)
Definition normalized_edition (edition : value) : value :=
  match edition with
  | VStr _ => if truthy edition then VDict [("content", edition)] else edition
  | _ => edition
  end.

(** The keys that [normalize_relaxed] assigns to. *)
Definition normalized_keys : list string :=
  ["version"; "edition"; "keyword"; "contributor"; "relation"].

(** [same_keys obj obj']: a dict [obj] is still a dict in [obj'], with the
    same keys in the same order. *)
Definition same_keys (obj obj' : value) : Prop :=
  forall d, obj = VDict d -> exists d', obj' = VDict d' /\ map fst d' = map fst d.

(** A procedure that neither adds, removes nor moves a key of its object. *)
Definition keeps_keys {A : Type} (m : proc A) : Prop :=
  forall obj, same_keys obj (fst (m obj)).

(** A procedure that, run again on what it left, changes nothing more,
    provided both runs return. *)
Definition settled_after_one_run {A : Type} (m : proc A) : Prop :=
  forall obj o1 o2 (u u' : A),
    m obj = (o1, Ok u) -> m o1 = (o2, Ok u') -> o2 = o1.

(** [settles_on ks m]: once [m] has returned on a dict, it leaves alone
    every dict that holds, under the keys [ks], what that run left there. *)
Definition settles_on {A : Type} (ks : list string) (m : proc A) : Prop :=
  forall d d1 d' o2 (u u' : A),
    m (VDict d) = (VDict d1, Ok u) ->
    (forall k, In k ks -> dict_get d' k = dict_get d1 k) ->
    m (VDict d') = (o2, Ok u') ->
    o2 = VDict d'.

(** No key occurs twice. *)
Fixpoint distinct (ks : list string) : bool :=
  match ks with
  | [] => true
  | k :: rest => negb (existsb (String.eqb k) rest) && distinct rest
  end.

(** The values that are Python values: in every dict, at any depth, the
    keys are distinct. *)
Fixpoint well_formed (v : value) : bool :=
  match v with
  | VList l => forallb well_formed l
  | VDict d => distinct (map fst d) && forallb (fun kv => well_formed (snd kv)) d
  | _ => true
  end.

(** The value under "contact" after the contact step. *)
Definition contacts_after (contact : value) : value :=
  if nonempty (as_list contact) then
    match normalize_contacts (as_list contact) with
    | Ok contacts' => VList contacts'
    | Raise _ => contact
    end
  else contact.

(** The value under "role" after the role step. *)
Definition roles_after (py_str : value -> string) (role : value) : value :=
  if truthy role then
    match comprehension (normalize_role py_str) (as_list role) with
    | Ok roles => VList roles
    | Raise _ => role
    end
  else role.

(** Lines 159-163 of [normalize_relaxed], on [gname]: the forenames. *)
Definition ensure_forenames : proc unit :=
  seq (get_ "forename" (VList []))
    (fun forename =>
       let fnames := as_list forename in
       if nonempty fnames then
         seq (lift (comprehension ensure_formatted_string_content fnames))
           (fun ensured => setitem "forename" (VList ensured))
       else ret tt).

(** Lines 164-166 of [normalize_relaxed], on [gname]: the initials. *)
Definition ensure_initials : proc unit :=
  seq (get_ "formatted_initials" VNone)
    (fun fi =>
       if truthy fi then
         seq (lift (ensure_formatted_string_content fi))
           (fun ensured => setitem "formatted_initials" ensured)
       else ret tt).

(** Lines 136-166 of [normalize_relaxed], on [contributor]: what is done
    to the person or the organization. *)
Definition adapt_person_or_organization : proc unit :=
  seq (get_ "person" VNone)
    (fun person =>
       seq (get_ "organization" VNone)
         (fun org =>
            if truthy person || truthy org then
              seq (if truthy person then in_place "person" VNone adapt_contacts
                   else in_place "organization" VNone adapt_contacts)
                (fun _ =>
                   if truthy person then in_place "person" VNone adapt_given_name
                   else ret tt)
            else ret tt)).

(** [settled_twice py_str b]: a second run of [normalize_relaxed] on what
    the first left of [b] changes nothing, if both return. *)
Definition settled_twice (py_str : value -> string) (b : value) : Prop :=
  forall b1 x b2 y,
    normalize_relaxed py_str b = (b1, Ok x) ->
    normalize_relaxed py_str b1 = (b2, Ok y) -> b2 = b1.

(** A record with a version, an edition, keywords, two contributors and a
    nested relation. *)
Definition record_with_all_fields : value :=
  VDict
    [("version", VStr "1.0");
     ("edition", VStr "2");
     ("keyword", VList [VStr "a"; VDict [("content", VStr "b")]]);
     ("contributor",
      VList
        [VDict [("person",
                 VDict [("contact",
                         VList [VDict [("type", VStr "email"); ("value", VStr "a@b.com")];
                                VDict [("type", VStr "email"); ("value", VStr "")];
                                VDict [("city", VStr "X")]]);
                        ("name",
                         VDict [("given",
                                 VDict [("forename", VDict [("content", VStr "Jane")])])])]);
                ("role", VStr "editor")];
         VDict [("organization", VDict [("contact", VDict [("phone", VStr "1")])]);
                ("role", VList [VStr "publisher"; VInt 3])]]);
     ("relation",
      VList [VDict [("type", VStr "includes");
                    ("bibitem",
                     VDict [("edition", VStr "1");
                            ("relation",
                             VList [VDict [("bibitem", VDict [("keyword", VStr "ab")])]])])];
             VDict [("type", VStr "updates")]])].

(** [main/util.py]: the format that the request names, [json_repr] by default (line 157). *)
Definition format_sent (req : SearchView.request) : string :=
  match SearchView.GET req "query_format" with Some f => f | None => "json_repr" end.

(** [main/util.py]: a request of the examples, by its [query] and
    [query_format] parameters, and a view as the class declares it
    (lines 44, 57, 61). *)
Definition request_of (query query_format : option string) : SearchView.request :=
  SearchView.mk_request (fun name =>
    if String.eqb name "query" then query
    else if String.eqb name "query_format" then query_format
    else None).

Definition fresh_view : SearchView.view := SearchView.mk_view false None None.

Definition no_kwargs : string -> option string := fun _ => None.

(** A stand-in for [json.loads] in the examples: it reads [null] only. *)
Definition json_loads_example (s : string) : option value :=
  if String.eqb s "null" then Some VNone else None.

(** A stand-in for the parent class in the examples. *)
Definition super_get_example (self : SearchView.view)
  : SearchView.view * SearchView.result string :=
  (self, SearchView.Returns "200"%string).

(** ** Properties of the field normalizers *)

Lemma eq_str_true (v : value) (s : string) : eq_str v s = true <-> v = VStr s.
Proof.
  destruct v; simpl; split; try discriminate.
  - intros H. apply String.eqb_eq in H. now subst.
  - intros H. injection H as ->. apply String.eqb_refl.
Qed.

Lemma eq_str_false (v : value) (s : string) : eq_str v s = false <-> v <> VStr s.
Proof.
  rewrite <- eq_str_true. destruct (eq_str v s); split; congruence.
Qed.

Lemma dict_mem_true (d : dict) (k : string) :
  dict_mem d k = true <-> exists v, dict_get d k = Some v.
Proof.
  unfold dict_mem. destruct (dict_get d k); split; try discriminate; eauto.
  intros [v H]. discriminate.
Qed.

Lemma dict_mem_false (d : dict) (k : string) :
  dict_mem d k = false <-> dict_get d k = None.
Proof.
  unfold dict_mem. destruct (dict_get d k); split; congruence.
Qed.

(** The guarantor on a mapping without "content": the empty content is
    put in front of the other entries. *)
Lemma ensure_content_absent (d : dict) :
  dict_get d "content" = None ->
  ensure_formatted_string_content (VDict d) = Ok (VDict (("content", VStr "") :: d)).
Proof.
  intros H. unfold ensure_formatted_string_content, dict_call_content, dict_mem.
  simpl. rewrite H. reflexivity.
Qed.

(** The guarantor on a mapping with truthy "content": unchanged. *)
Lemma ensure_content_truthy (d : dict) (c : value) :
  dict_get d "content" = Some c -> truthy c = true ->
  ensure_formatted_string_content (VDict d) = Ok (VDict d).
Proof.
  intros H T. unfold ensure_formatted_string_content. simpl. rewrite H, T. reflexivity.
Qed.

(** The guarantor on a mapping whose "content" is there but falsy: the
    call [dict(content='', **fname)] gets "content" twice. *)
Lemma ensure_content_falsy (d : dict) (c : value) :
  dict_get d "content" = Some c -> truthy c = false ->
  ensure_formatted_string_content (VDict d) = Raise TypeError.
Proof.
  intros H T. unfold ensure_formatted_string_content, dict_call_content, dict_mem.
  simpl. rewrite H, T. simpl. reflexivity.
Qed.

(** C4: a formatted string whose "content" is present and empty, which the
    guarantor should return with [content: ""], makes it raise; so does a
    "content" of [None].  The two cases the spec names, [{}] and
    [{content: "Jane"}], behave as stated. *)
Theorem ensure_formatted_string_content_present_falsy :
  ensure_formatted_string_content (VDict [("content", VStr "")]) = Raise TypeError
  /\ ensure_formatted_string_content (VDict [("content", VNone); ("language", VStr "en")])
     = Raise TypeError
  /\ ensure_formatted_string_content (VDict []) = Ok (VDict [("content", VStr "")])
  /\ ensure_formatted_string_content (VDict [("content", VStr "Jane")])
     = Ok (VDict [("content", VStr "Jane")]).
Proof. repeat split. Qed.

Section ContactRules.

Variables (d : dict) (t v : value).
Hypothesis type_found : dict_get d "type" = Some t.
Hypothesis value_found : dict_get d "value" = Some v.

Lemma contact_typed_prefix :
  truthy t = true ->
  normalize_contact (VDict d) =
    if truthy v then
      if eq_str t "email" then Ok (VDict [("email", v)])
      else if eq_str t "uri" || eq_str t "url" then Ok (VDict [("uri", v)])
      else if eq_str t "phone" then Ok (VDict [("phone", VDict [("content", v)])])
      else if dict_mem d "city" || dict_mem d "country" then Ok (VDict [("address", VDict d)])
      else match dict_get d "phone" with
           | Some (VStr s) => Ok (VDict [("phone", VDict [("content", VStr s)])])
           | _ => Ok (VDict d)
           end
    else Ok VNone.
Proof.
  intros T. unfold normalize_contact, dict_getitem, dict_mem. simpl.
  rewrite type_found, value_found, T. simpl.
  destruct (truthy v); [|reflexivity].
  destruct (eq_str t "email"); [reflexivity|].
  destruct (eq_str t "uri" || eq_str t "url"); [reflexivity|].
  destruct (eq_str t "phone"); reflexivity.
Qed.

End ContactRules.

(** When the type/value rule does not apply, the address and phone rules
    decide. *)
Lemma contact_untyped (d : dict) :
  (match dict_get d "type" with Some t => truthy t | None => false end
   && dict_mem d "value") = false ->
  normalize_contact (VDict d) =
    if dict_mem d "city" || dict_mem d "country" then Ok (VDict [("address", VDict d)])
    else match dict_get d "phone" with
         | Some (VStr s) => Ok (VDict [("phone", VDict [("content", VStr s)])])
         | _ => Ok (VDict d)
         end.
Proof.
  intros H. unfold normalize_contact. simpl.
  destruct (dict_get d "type") as [t|]; simpl in *.
  - rewrite H. reflexivity.
  - reflexivity.
Qed.

Lemma contact_no_typed_rule (d : dict) :
  typed_rule_applies d = false ->
  normalize_contact (VDict d) =
    if dict_mem d "city" || dict_mem d "country" then Ok (VDict [("address", VDict d)])
    else match dict_get d "phone" with
         | Some (VStr s) => Ok (VDict [("phone", VDict [("content", VStr s)])])
         | _ => Ok (VDict d)
         end.
Proof.
  unfold typed_rule_applies, recognized. intros H.
  destruct (dict_get d "type") as [t|] eqn:Ht.
  - destruct (dict_get d "value") as [v|] eqn:Hv.
    + destruct (truthy t) eqn:T.
      * rewrite (contact_typed_prefix d t v Ht Hv T).
        simpl in H. apply orb_false_iff in H as [Hv' Hr].
        apply negb_false_iff in Hv'. rewrite Hv'.
        apply orb_false_iff in Hr as [Hr Hp].
        apply orb_false_iff in Hr as [Hr Hu2].
        apply orb_false_iff in Hr as [He Hu].
        rewrite He, Hu, Hu2, Hp. reflexivity.
      * apply contact_untyped. rewrite Ht, T. reflexivity.
    + apply contact_untyped. rewrite Ht. unfold dict_mem. rewrite Hv.
      apply andb_false_r.
  - apply contact_untyped. rewrite Ht. reflexivity.
Qed.

(** C7: the rules of [normalize_contact], first match first.  A truthy
    value with type "email", "uri"/"url" or "phone" gives the [email],
    [uri] or [phone] variant; a truthy type with a falsy value gives
    [None], which makes the caller drop the entry; when no type/value rule
    applies, a "city" or "country" key wraps the whole mapping as an
    [address]; failing that, a string under "phone" gives the [phone]
    variant; and what is not a mapping raises [TypeError]. *)
Theorem normalize_contact_rules :
  (forall d t v,
      dict_get d "type" = Some t -> dict_get d "value" = Some v -> truthy v = true ->
      (t = VStr "email" -> normalize_contact (VDict d) = Ok (VDict [("email", v)]))
      /\ (t = VStr "uri" \/ t = VStr "url" ->
          normalize_contact (VDict d) = Ok (VDict [("uri", v)]))
      /\ (t = VStr "phone" ->
          normalize_contact (VDict d) = Ok (VDict [("phone", VDict [("content", v)])])))
  /\ (forall d t v,
      dict_get d "type" = Some t -> truthy t = true ->
      dict_get d "value" = Some v -> truthy v = false ->
      normalize_contact (VDict d) = Ok VNone)
  /\ (forall d,
      typed_rule_applies d = false ->
      dict_mem d "city" = true \/ dict_mem d "country" = true ->
      normalize_contact (VDict d) = Ok (VDict [("address", VDict d)]))
  /\ (forall d s,
      typed_rule_applies d = false ->
      dict_mem d "city" = false -> dict_mem d "country" = false ->
      dict_get d "phone" = Some (VStr s) ->
      normalize_contact (VDict d) = Ok (VDict [("phone", VDict [("content", VStr s)])]))
  /\ (forall raw, (forall d, raw <> VDict d) -> normalize_contact raw = Raise TypeError).
Proof.
  split; [|split; [|split; [|split]]].
  - intros d t v Ht Hv Tv. repeat split.
    + intros ->. rewrite (contact_typed_prefix d _ v Ht Hv eq_refl), Tv. reflexivity.
    + intros [-> | ->];
        rewrite (contact_typed_prefix d _ v Ht Hv eq_refl), Tv; reflexivity.
    + intros ->. rewrite (contact_typed_prefix d _ v Ht Hv eq_refl), Tv. reflexivity.
  - intros d t v Ht Tt Hv Tv.
    rewrite (contact_typed_prefix d t v Ht Hv Tt), Tv. reflexivity.
  - intros d H Hc. rewrite (contact_no_typed_rule d H).
    destruct Hc as [-> | ->]; [reflexivity | rewrite orb_true_r; reflexivity].
  - intros d s H Hc Hk Hp. rewrite (contact_no_typed_rule d H), Hc, Hk, Hp. reflexivity.
  - intros raw H. destruct raw; try reflexivity. now destruct (H entries).
Qed.

(** The spec's examples of the contact rules. *)
Lemma normalize_contact_rules_witness :
  normalize_contact (VDict [("type", VStr "email"); ("value", VStr "a@b.com")])
    = Ok (VDict [("email", VStr "a@b.com")])
  /\ normalize_contact (VDict [("type", VStr "url"); ("value", VStr "https://x.org")])
    = Ok (VDict [("uri", VStr "https://x.org")])
  /\ normalize_contact (VDict [("type", VStr "phone"); ("value", VStr "123")])
    = Ok (VDict [("phone", VDict [("content", VStr "123")])])
  /\ normalize_contact (VDict [("type", VStr "email"); ("value", VStr "")]) = Ok VNone
  /\ normalize_contact (VDict [("city", VStr "X")])
    = Ok (VDict [("address", VDict [("city", VStr "X")])])
  /\ normalize_contact (VDict [("phone", VStr "123")])
    = Ok (VDict [("phone", VDict [("content", VStr "123")])])
  /\ normalize_contact (VStr "a@b.com") = Raise TypeError.
Proof.
  destruct normalize_contact_rules as (Typed & Falsy & Address & Phone & NotDict).
  split; [|split; [|split; [|split; [|split; [|split]]]]].
  - apply (Typed _ (VStr "email") (VStr "a@b.com")); reflexivity.
  - apply (Typed _ (VStr "url") (VStr "https://x.org")); try reflexivity.
    right; reflexivity.
  - apply (Typed _ (VStr "phone") (VStr "123")); reflexivity.
  - apply (Falsy _ (VStr "email") (VStr "")); reflexivity.
  - apply Address; [reflexivity | left; reflexivity].
  - apply Phone; reflexivity.
  - apply NotDict. intros d; discriminate.
Defined.

Section FieldNormalizersTotal.

Variable py_str : value -> string.


End FieldNormalizersTotal.

(** C9: a mapping with a truthy type other than "email", "uri", "url" and
    "phone", a truthy value, no "city", no "country" and no string under
    "phone" comes back from [normalize_contact] as it is. *)
Theorem normalize_contact_pass_through (d : dict) (t v : value) :
  dict_get d "type" = Some t -> truthy t = true ->
  t <> VStr "email" -> t <> VStr "uri" -> t <> VStr "url" -> t <> VStr "phone" ->
  dict_get d "value" = Some v -> truthy v = true ->
  dict_mem d "city" = false -> dict_mem d "country" = false ->
  (forall s, dict_get d "phone" <> Some (VStr s)) ->
  normalize_contact (VDict d) = Ok (VDict d).
Proof.
  intros Ht Tt Ne Nu Nl Np Hv Tv Hc Hk Hp.
  rewrite (contact_typed_prefix d t v Ht Hv Tt), Tv.
  apply eq_str_false in Ne, Nu, Nl, Np. rewrite Ne, Nu, Nl, Np, Hc, Hk. simpl.
  destruct (dict_get d "phone") as [[]|]; try reflexivity.
  now destruct (Hp s).
Qed.

Lemma normalize_contact_pass_through_witness :
  normalize_contact (VDict [("type", VStr "fax"); ("value", VStr "555-0100")])
  = Ok (VDict [("type", VStr "fax"); ("value", VStr "555-0100")]).
Proof.
  apply (normalize_contact_pass_through _ (VStr "fax") (VStr "555-0100"));
    try reflexivity; discriminate.
Defined.

(** ** Properties of [get_primary_docid] *)



(** An identifier and the one with id and type exchanged have the same
    deduplication key. *)
Lemma id_type_set_swapped (a b : string) :
  id_type_set (primary_docid a b) = id_type_set (primary_docid b a).
Proof.
  unfold id_type_set, primary_docid. cbn [DocID.id DocID.type].
  rewrite !list_to_set_cons, list_to_set_nil, !(right_id_L ∅ (∪)).
  apply (comm_L (∪)).
Qed.

(** Hence a list of the two gives one key, and no warning. *)
Lemma swapped_pair_not_warned (a b : string) :
  get_primary_docid [primary_docid a b; primary_docid b a]
  = (Some (primary_docid a b), []).
Proof.
  unfold get_primary_docid, deduped.
  change (List.filter is_primary [primary_docid a b; primary_docid b a])
    with [primary_docid a b; primary_docid b a].
  cbn [map]. rewrite !list_to_set_cons, list_to_set_nil, (right_id_L ∅ (∪)).
  rewrite (id_type_set_swapped b a), (idemp_L (∪)), size_singleton. reflexivity.
Qed.

(** C5: the two primary identifiers A/B and B/A differ in id and in type,
    yet [frozenset([id, type])] is the same for both: they count as one, no
    warning is logged, and the first is returned.  Two identical entries
    collapse to one, as stated. *)
Theorem swapped_id_and_type_count_as_one :
  DocID.id (primary_docid "A" "B") <> DocID.id (primary_docid "B" "A")
  /\ DocID.type (primary_docid "A" "B") <> DocID.type (primary_docid "B" "A")
  /\ size (deduped (List.filter is_primary [primary_docid "A" "B"; primary_docid "B" "A"])) = 1
  /\ get_primary_docid [primary_docid "A" "B"; primary_docid "B" "A"]
     = (Some (primary_docid "A" "B"), [])
  /\ size (deduped (List.filter is_primary [primary_docid "A" "DOI"; primary_docid "A" "DOI"])) = 1
  /\ get_primary_docid [primary_docid "A" "DOI"; primary_docid "A" "DOI"]
     = (Some (primary_docid "A" "DOI"), []).
Proof.
  split; [discriminate|]. split; [discriminate|].
  repeat split; vm_compute; reflexivity.
Qed.



(** ** Dicts, frames and sequencing *)

Lemma dict_get_set_eq (d : dict) (k : string) (v : value) :
  dict_get (dict_set d k v) k = Some v.
Proof.
  induction d as [|[k' v'] d IH]; simpl.
  - now rewrite String.eqb_refl.
  - destruct (String.eqb k' k) eqn:E; simpl; rewrite E; [reflexivity | exact IH].
Qed.

Lemma dict_get_set_ne (d : dict) (k k' : string) (v : value) :
  k' <> k -> dict_get (dict_set d k' v) k = dict_get d k.
Proof.
  intros N. induction d as [|[k0 v0] d IH]; simpl.
  - apply String.eqb_neq in N. now rewrite N.
  - destruct (String.eqb k0 k') eqn:E; simpl.
    + apply String.eqb_eq in E. subst k0.
      apply String.eqb_neq in N. now rewrite N.
    + destruct (String.eqb k0 k); [reflexivity | exact IH].
Qed.

Lemma frame_refl (k : string) (obj : value) : frame k obj obj.
Proof. intros d ->. eauto. Qed.

Lemma frame_trans (k : string) (a b c : value) :
  frame k a b -> frame k b c -> frame k a c.
Proof.
  intros Hab Hbc d Ha. destruct (Hab d Ha) as (d' & Hb & E).
  destruct (Hbc d' Hb) as (d'' & Hc & E'). exists d''. split; congruence.
Qed.

Lemma frame_store (k k' : string) (child : value) (obj : value) :
  k <> k' -> frame k obj (store k' child obj).
Proof.
  intros N' d ->. assert (N : k' <> k) by congruence. simpl. destruct (dict_mem d k'); eauto.
  eexists. split; [reflexivity|]. now apply dict_get_set_ne.
Qed.

Lemma frames_ret {A : Type} (k : string) (a : A) : frames k (ret a).
Proof. intros obj. apply frame_refl. Qed.

Lemma frames_lift {A : Type} (k : string) (r : outcome A) : frames k (lift r).
Proof. intros obj. apply frame_refl. Qed.

Lemma frames_get_ (k k' : string) (default : value) : frames k (get_ k' default).
Proof. intros obj. apply frame_refl. Qed.

Lemma frames_setitem (k k' : string) (v : value) : k <> k' -> frames k (setitem k' v).
Proof.
  intros N' obj d ->. assert (N : k' <> k) by congruence. simpl. eexists. split; [reflexivity|]. now apply dict_get_set_ne.
Qed.

Lemma frames_try_pass (k : string) (m : proc unit) : frames k m -> frames k (try_pass m).
Proof.
  intros H obj. specialize (H obj). unfold try_pass. now destruct (m obj).
Qed.

Lemma frames_seq {A B : Type} (k : string) (m : proc A) (f : A -> proc B) :
  frames k m -> (forall a, frames k (f a)) -> frames k (seq m f).
Proof.
  intros Hm Hf obj. specialize (Hm obj). unfold seq.
  destruct (m obj) as [o [a|e]]; simpl in *; [|exact Hm].
  eapply frame_trans; [exact Hm | apply Hf].
Qed.

Lemma frames_in_place {A : Type} (k k' : string) (child : value) (m : proc A) :
  k <> k' -> frames k (in_place k' child m).
Proof.
  intros N obj. unfold in_place. destruct (m _). simpl. now apply frame_store.
Qed.

(** Splits a goal [frames k m] along the structure of [m]. *)
Ltac frames_auto :=
  repeat first
    [ apply frames_ret | apply frames_lift | apply frames_get_
    | apply frames_setitem; assumption
    | apply frames_in_place; assumption
    | apply frames_try_pass
    | apply frames_seq; [|intros ?]
    | progress cbv zeta
    | match goal with
      | |- frames _ (if ?b then _ else _) => destruct b
      | |- frames _ (match ?x with _ => _ end) => destruct x
      end ].

Lemma seq_ok {A B : Type} (m : proc A) (f : A -> proc B) (obj obj' : value) (b : B) :
  seq m f obj = (obj', Ok b) ->
  exists a o, m obj = (o, Ok a) /\ f a o = (obj', Ok b).
Proof.
  unfold seq. destruct (m obj) as [o [a|e]]; [eauto | discriminate].
Qed.

Lemma depth_in_list (x : value) (l : list value) : In x l -> depth x < depth (VList l).
Proof.
  simpl. induction l as [|y l IH]; simpl; [tauto|].
  intros [-> | H]; [lia | specialize (IH H); lia].
Qed.

Lemma depth_dict_get (d : dict) (k : string) (v : value) :
  dict_get d k = Some v -> depth v < depth (VDict d).
Proof.
  simpl. induction d as [|[k' v'] d IH]; simpl; [discriminate|].
  destruct (String.eqb k' k).
  - intros [= ->]. lia.
  - intros H. specialize (IH H). lia.
Qed.

Lemma chars_are_strings (s : string) (r : value) :
  In r (chars s) -> exists c, r = VStr c.
Proof.
  induction s; simpl; [tauto|]. intros [<- | H]; eauto.
Qed.

Lemma keys_are_strings (d : dict) (r : value) :
  In r (map (fun kv => VStr (fst kv)) d) -> exists c, r = VStr c.
Proof.
  intros H. apply in_map_iff in H as (kv & <- & _). eauto.
Qed.

(** ** Properties of [normalize_relaxed] *)

Section NormalizeRelaxed.

Variable py_str : value -> string.

Lemma step_version_frames (k : string) : k <> "version" -> frames k step_version.
Proof. intros N. unfold step_version. frames_auto. Qed.

Lemma step_edition_frames (k : string) : k <> "edition" -> frames k step_edition.
Proof. intros N. unfold step_edition. frames_auto. Qed.

Lemma step_keyword_frames (k : string) : k <> "keyword" -> frames k (step_keyword py_str).
Proof. intros N. unfold step_keyword. frames_auto. Qed.

Lemma step_contributor_frames (k : string) :
  k <> "contributor" -> frames k (step_contributor py_str).
Proof.
  intros N. unfold step_contributor. frames_auto.
  intros obj. destruct (for_each _ _). simpl. now apply frame_store.
Qed.

Lemma step_relation_frames (k : string) (self : value -> value * outcome value) :
  k <> "relation" -> frames k (step_relation self).
Proof.
  intros N. unfold step_relation. frames_auto.
  intros obj. destruct (relation_comprehension _ _) as [items' [out|e]].
  - now apply frames_setitem.
  - simpl. now apply frame_store.
Qed.

Lemma before_relations_frames (k : string) :
  k <> "version" -> k <> "edition" -> k <> "keyword" -> k <> "contributor" ->
  frames k (before_relations py_str).
Proof.
  intros. unfold before_relations.
  apply frames_seq; [now apply step_version_frames | intros _].
  apply frames_seq; [now apply step_edition_frames | intros _].
  apply frames_seq; [now apply step_keyword_frames | intros _].
  now apply step_contributor_frames.
Qed.

Lemma normalize_relaxed_body_split (self : value -> value * outcome value) (obj : value) :
  normalize_relaxed_body py_str self obj
  = seq (before_relations py_str)
      (fun _ => seq (step_relation self) (fun _ data => (data, Ok data))) obj.
Proof.
  unfold normalize_relaxed_body, before_relations, seq.
  destruct (step_version obj) as [o1 [[]|e1]]; [|reflexivity].
  destruct (step_edition o1) as [o2 [[]|e2]]; [|reflexivity].
  destruct (step_keyword py_str o2) as [o3 [[]|e3]]; [|reflexivity].
  destruct (step_contributor py_str o3) as [o4 [[]|e4]]; reflexivity.
Qed.

Lemma normalize_relaxed_body_frames (k : string) (self : value -> value * outcome value) :
  k <> "version" -> k <> "edition" -> k <> "keyword" -> k <> "contributor" ->
  k <> "relation" ->
  frames k (normalize_relaxed_body py_str self).
Proof.
  intros ? ? ? ? ? obj. rewrite normalize_relaxed_body_split.
  revert obj. apply frames_seq; [now apply before_relations_frames|]. intros _.
  apply frames_seq; [now apply step_relation_frames|]. intros _ obj. apply frame_refl.
Qed.

Lemma before_relations_needs_dict (obj obj' : value) (u : unit) :
  before_relations py_str obj = (obj', Ok u) -> exists d, obj = VDict d.
Proof.
  destruct obj; try (intros H; discriminate H). eauto.
Qed.

(** Two candidates for the recursive call that agree on the bibitems of
    the relations give the same comprehension. *)
Lemma relation_comprehension_ext (f g : value -> value * outcome value)
    (items : list value) :
  (forall r b, In r items -> py_get r "bibitem" VNone = Ok b -> truthy b = true ->
               f b = g b) ->
  relation_comprehension f items = relation_comprehension g items.
Proof.
  induction items as [|r rest IH]; intros H; [reflexivity|].
  simpl. destruct (py_get r "bibitem" VNone) as [b|e] eqn:Eb; [|reflexivity].
  rewrite IH by (intros r' b' Hin; apply H; now right).
  destruct (truthy b) eqn:Tb; [|reflexivity].
  rewrite (H r b) by (auto; now left). reflexivity.
Qed.

Lemma step_relation_ext (f g : value -> value * outcome value) (obj : value) (n : nat) :
  (forall d rel, obj = VDict d -> dict_get d "relation" = Some rel -> depth rel < n) ->
  (forall b, depth b < n -> f b = g b) ->
  step_relation f obj = step_relation g obj.
Proof.
  intros Hrel Hfg. destruct obj as [| | | | |d]; try reflexivity.
  unfold step_relation, seq, get_, lift. simpl.
  destruct (dict_get d "relation") as [rel|] eqn:Er; [|reflexivity].
  specialize (Hrel d rel eq_refl Er).
  destruct (truthy rel); [|reflexivity].
  destruct (py_iter rel) as [items|e] eqn:Ei; [|reflexivity].
  rewrite (relation_comprehension_ext f g items); [reflexivity|].
  intros r b Hin Hb Tb. apply Hfg.
  destruct rel; simpl in Ei; try discriminate; injection Ei as <-.
  - apply chars_are_strings in Hin as [c ->]. discriminate.
  - pose proof (depth_in_list _ _ Hin) as Hr.
    destruct r as [| | | | |rd]; try discriminate. simpl in Hb.
    destruct (dict_get rd "bibitem") as [b'|] eqn:Eb.
    + injection Hb as ->. pose proof (depth_dict_get _ _ _ Eb). lia.
    + injection Hb as <-. discriminate.
  - apply keys_are_strings in Hin as [c ->]. discriminate.
Qed.

Lemma normalize_relaxed_body_ext (f g : value -> value * outcome value) (obj : value) :
  (forall b, depth b < depth obj -> f b = g b) ->
  normalize_relaxed_body py_str f obj = normalize_relaxed_body py_str g obj.
Proof.
  intros H. rewrite !normalize_relaxed_body_split. unfold seq.
  destruct (before_relations py_str obj) as [o [[]|e]] eqn:E; [|reflexivity].
  rewrite (step_relation_ext f g o (depth obj)); [reflexivity| |exact H].
  intros d' rel -> Er.
  destruct (before_relations_needs_dict _ _ _ E) as [d ->].
  pose proof (before_relations_frames "relation") as F.
  specialize (F ltac:(discriminate) ltac:(discriminate) ltac:(discriminate)
                ltac:(discriminate) (VDict d) d eq_refl).
  rewrite E in F. destruct F as (d'' & [= <-] & Eq).
  rewrite Eq in Er. exact (depth_dict_get _ _ _ Er).
Qed.

(** Any bound above the depth of the record gives the same result. *)
Lemma normalize_relaxed_upto_stable (n m : nat) (obj : value) :
  depth obj < n -> depth obj < m ->
  normalize_relaxed_upto py_str n obj = normalize_relaxed_upto py_str m obj.
Proof.
  revert m obj. induction n as [|n IH]; intros m obj Hn Hm; [lia|].
  destruct m as [|m]; [lia|]. simpl.
  apply normalize_relaxed_body_ext. intros b Hb. apply IH; lia.
Qed.

Lemma normalize_relaxed_upto_enough (n : nat) (obj : value) :
  depth obj < n -> normalize_relaxed_upto py_str n obj = normalize_relaxed py_str obj.
Proof.
  intros H. unfold normalize_relaxed. apply normalize_relaxed_upto_stable; lia.
Qed.

(** [normalize_relaxed] is its body applied to itself: the bound plays no
    role. *)
Lemma normalize_relaxed_unfold (obj : value) :
  normalize_relaxed py_str obj
  = normalize_relaxed_body py_str (normalize_relaxed py_str) obj.
Proof.
  unfold normalize_relaxed at 1. simpl.
  apply normalize_relaxed_body_ext. intros b Hb.
  now apply normalize_relaxed_upto_enough.
Qed.

(** The equation of the source has one solution: [normalize_relaxed]. *)
Lemma normalize_relaxed_unique (f : value -> value * outcome value) :
  (forall obj, f obj = normalize_relaxed_body py_str f obj) ->
  forall obj, f obj = normalize_relaxed py_str obj.
Proof.
  intros Hf obj. remember (depth obj) as n eqn:En.
  revert obj En. induction n as [n IH] using lt_wf_ind. intros obj ->.
  rewrite Hf, normalize_relaxed_unfold.
  apply normalize_relaxed_body_ext. intros b Hb. now apply (IH (depth b)).
Qed.

Lemma normalize_relaxed_returns_its_argument (obj obj' returned : value) :
  normalize_relaxed py_str obj = (obj', Ok returned) -> returned = obj'.
Proof.
  rewrite normalize_relaxed_unfold, normalize_relaxed_body_split. intros H.
  apply seq_ok in H as (a & o & _ & H). apply seq_ok in H as (a' & o' & _ & H).
  congruence.
Qed.

Lemma relation_comprehension_ok (rs rs' out : list value) :
  relation_comprehension (normalize_relaxed py_str) rs = (rs', Ok out) ->
  out = map (rebuilt_relation py_str) (List.filter has_truthy_bibitem rs).
Proof.
  revert rs' out. induction rs as [|r rest IH]; intros rs' out H; simpl in H.
  - now injection H as <- <-.
  - destruct r as [| | | | |rd]; try discriminate H. simpl in H. simpl.
    destruct (dict_get rd "bibitem") as [b|] eqn:Eb.
    + destruct (truthy b) eqn:Tb.
      * destruct (normalize_relaxed py_str b) as [b' [ret|e]] eqn:En;
          unfold dict_mem in H; rewrite Eb in H; [|discriminate H].
        apply normalize_relaxed_returns_its_argument in En as E'. subst ret.
        destruct (relation_comprehension _ rest) as [rest' [out'|e]];
          [|discriminate H].
        injection H as _ <-. simpl. rewrite Eb, En. simpl.
        f_equal. now apply (IH rest').
      * destruct (relation_comprehension _ rest) as [rest' res].
        injection H as _ ->. now apply (IH rest').
    + simpl in H. destruct (relation_comprehension _ rest) as [rest' res].
      injection H as _ ->. now apply (IH rest').
Qed.

(** C10: when [normalize_relaxed] returns, the relations of the record are
    the rebuilt entries of those relations that held a truthy value under
    "bibitem", in their order; an entry holding a falsy value there goes
    the way of an entry without the key. *)
Theorem relation_entries_kept_iff_truthy_bibitem
    (d : dict) (rs : list value) (data' returned : value) :
  dict_get d "relation" = Some (VList rs) ->
  normalize_relaxed py_str (VDict d) = (data', Ok returned) ->
  py_get returned "relation" VNone
  = Ok (VList (map (rebuilt_relation py_str) (List.filter has_truthy_bibitem rs))).
Proof.
  intros Hrel H.
  rewrite normalize_relaxed_unfold, normalize_relaxed_body_split in H.
  apply seq_ok in H as ([] & o & Hbefore & H).
  apply seq_ok in H as ([] & o' & Hstep & H). injection H as _ <-.
  pose proof (before_relations_frames "relation") as F.
  specialize (F ltac:(discriminate) ltac:(discriminate) ltac:(discriminate)
                ltac:(discriminate) (VDict d) d eq_refl).
  rewrite Hbefore in F. simpl in F. destruct F as (d4 & -> & Eq). rewrite Hrel in Eq.
  unfold step_relation, seq, get_, lift in Hstep. simpl in Hstep.
  rewrite Eq in Hstep. destruct rs as [|r rest].
  - simpl in Hstep. injection Hstep as <-. simpl. now rewrite Eq.
  - cbn [truthy py_iter] in Hstep.
    destruct (relation_comprehension _ (r :: rest)) as [items' [out|e]] eqn:Ec;
      [|discriminate Hstep].
    simpl in Hstep. injection Hstep as <-. simpl. rewrite dict_get_set_eq.
    now rewrite (relation_comprehension_ok _ _ _ Ec).
Qed.

(** C2: normalizing [record_with_empty_forename] returns the record with
    the forename turned into [{content: ""}]; normalizing that result once
    more raises [TypeError] instead of returning an equal tree. *)
Theorem normalize_relaxed_again_raises :
  exists once,
    normalize_relaxed py_str record_with_empty_forename = (once, Ok once)
    /\ normalize_relaxed py_str once = (once, Raise TypeError).
Proof.
  eexists. split; vm_compute; reflexivity.
Qed.

Lemma try_pass_returns (m : proc unit) (obj : value) : snd (try_pass m obj) = Ok tt.
Proof. unfold try_pass. now destruct (m obj). Qed.

(** The version step returns on every mapping. *)
Lemma step_version_returns (d : dict) : snd (step_version (VDict d)) = Ok tt.
Proof.
  unfold step_version, seq, get_. simpl.
  destruct (nonempty _); [|reflexivity].
  apply try_pass_returns.
Qed.

(** The contact step returns on every mapping. *)
Lemma adapt_contacts_returns (d : dict) : snd (adapt_contacts (VDict d)) = Ok tt.
Proof.
  unfold adapt_contacts, seq, get_. simpl.
  destruct (nonempty _); [|reflexivity].
  apply try_pass_returns.
Qed.

(** C3: [normalize_relaxed] raises to its caller where no role is
    involved: a relation whose bibitem is a string ends the relation step
    with [AttributeError], a keyword that is a number ends the keyword step
    with [TypeError], and a forename given as a plain string ends the
    contributor step with [AttributeError]. *)
Theorem normalize_relaxed_raises_outside_roles :
  snd (normalize_relaxed py_str
         (VDict [("relation", VList [VDict [("bibitem", VStr "x")]])]))
  = Raise AttributeError
  /\ snd (normalize_relaxed py_str (VDict [("keyword", VInt 5)])) = Raise TypeError
  /\ snd (normalize_relaxed py_str
            (VDict [("contributor",
                     VList [VDict [("person",
                                    VDict [("name",
                                            VDict [("given",
                                                    VDict [("forename",
                                                            VList [VStr "Jane"])])])])]])]))
     = Raise AttributeError.
Proof.
  repeat split; vm_compute; reflexivity.
Qed.

End NormalizeRelaxed.

Lemma relation_entries_kept_iff_truthy_bibitem_witness :
  py_get
    (VDict [("relation",
             VList [VDict [("bibitem", VDict [("edition", VDict [("content", VStr "2")])]);
                           ("type", VStr "includes")]])])
    "relation" VNone
  = Ok (VList (map (rebuilt_relation str_of_example)
                 (List.filter has_truthy_bibitem
                    [VDict [("type", VStr "includes");
                            ("bibitem", VDict [("edition", VStr "2")])];
                     VDict [("type", VStr "updates")];
                     VDict [("type", VStr "obsoletes"); ("bibitem", VDict [])];
                     VDict [("bibitem", VNone)]]))).
Proof.
  apply (relation_entries_kept_iff_truthy_bibitem str_of_example
           [("relation",
             VList [VDict [("type", VStr "includes");
                           ("bibitem", VDict [("edition", VStr "2")])];
                    VDict [("type", VStr "updates")];
                    VDict [("type", VStr "obsoletes"); ("bibitem", VDict [])];
                    VDict [("bibitem", VNone)]])]
           _
           (VDict [("relation",
                    VList [VDict [("bibitem",
                                   VDict [("edition", VDict [("content", VStr "2")])]);
                                  ("type", VStr "includes")]])])).
  - reflexivity.
  - vm_compute. reflexivity.
Defined.


(** ** Properties of [construct_bibitem] *)

Section ConstructBibitem.

Variable py_str : value -> string.
Variable BibliographicItem : Type.
Variable BibliographicItem_init : value -> outcome BibliographicItem.
Variable BibliographicItem_construct : value -> BibliographicItem.

(** What [normalize_relaxed] leaves of a mapping is a mapping, with the
    "docid" it had. *)
Lemma normalize_relaxed_keeps_mapping (d : dict) :
  exists d', fst (normalize_relaxed py_str (VDict d)) = VDict d'
             /\ dict_get d' "docid" = dict_get d "docid".
Proof.
  rewrite normalize_relaxed_unfold.
  now apply (normalize_relaxed_body_frames py_str "docid" (normalize_relaxed py_str)
               ltac:(discriminate) ltac:(discriminate) ltac:(discriminate)
               ltac:(discriminate) ltac:(discriminate) (VDict d) d).
Qed.

(** C1: let [data'] be the record as [normalize_relaxed] leaves it.  If
    the schema rejects [data'] with a validation error, then in strict
    mode [construct_bibitem] raises that error, and in lenient mode it
    returns the unchecked item built from [data'] together with the list
    of errors.  In lenient mode it never raises a validation error. *)
Theorem construct_bibitem_strict_raises_lenient_returns (d : dict) :
  (forall errs,
      BibliographicItem_init (fst (normalize_relaxed py_str (VDict d)))
      = Raise (ValidationError errs) ->
      snd (construct_bibitem py_str BibliographicItem BibliographicItem_init
             BibliographicItem_construct (VDict d) true)
      = Raise (ValidationError errs)
      /\ snd (construct_bibitem py_str BibliographicItem BibliographicItem_init
                BibliographicItem_construct (VDict d) false)
         = Ok (BibliographicItem_construct (fst (normalize_relaxed py_str (VDict d))),
               Some errs))
  /\ (forall errs,
      snd (construct_bibitem py_str BibliographicItem BibliographicItem_init
             BibliographicItem_construct (VDict d) false)
      <> Raise (ValidationError errs)).
Proof.
  destruct (normalize_relaxed_keeps_mapping d) as (d' & Hd & _).
  unfold construct_bibitem.
  destruct (normalize_relaxed py_str (VDict d)) as [data' r]. simpl in Hd. subst data'.
  simpl. split.
  - intros errs H. rewrite H. split; reflexivity.
  - intros errs. destruct (BibliographicItem_init (VDict d')) as [item|[]];
      simpl; discriminate.
Qed.

End ConstructBibitem.

Lemma construct_bibitem_strict_raises_lenient_returns_witness :
  snd (construct_bibitem str_of_example value toy_schema (fun data => data)
         (VDict [("edition", VStr "2")]) true)
  = Raise (ValidationError [VDict [("loc", VStr "docid"); ("msg", VStr "field required")]])
  /\ snd (construct_bibitem str_of_example value toy_schema (fun data => data)
            (VDict [("edition", VStr "2")]) false)
     = Ok (fst (normalize_relaxed str_of_example (VDict [("edition", VStr "2")])),
           Some [VDict [("loc", VStr "docid"); ("msg", VStr "field required")]]).
Proof.
  apply (construct_bibitem_strict_raises_lenient_returns str_of_example value toy_schema
           (fun data => data) [("edition", VStr "2")]).
  vm_compute. reflexivity.
Defined.

(** * Further properties *)

(** ** Field normalizers *)

Section FieldNormalizersShape.

Variable py_str : value -> string.



End FieldNormalizersShape.

(** ** [normalize_contact] on mappings *)

(** What the address and phone rules return is a mapping that the function
    returns as it is. *)
Lemma contact_untyped_result_settles (d : dict) :
  exists r,
    (if dict_mem d "city" || dict_mem d "country" then Ok (VDict [("address", VDict d)])
     else match dict_get d "phone" with
          | Some (VStr s) => Ok (VDict [("phone", VDict [("content", VStr s)])])
          | _ => Ok (VDict d)
          end) = Ok (VDict r)
    /\ (normalize_contact (VDict d) = Ok (VDict r) ->
        normalize_contact (VDict r) = Ok (VDict r)).
Proof.
  destruct (dict_mem d "city" || dict_mem d "country").
  - eexists. split; reflexivity.
  - destruct (dict_get d "phone") as [[]|]; eexists; split; try reflexivity; auto.
Qed.

Lemma normalize_contact_cases (d : dict) :
  (typed_without_value d = true /\ normalize_contact (VDict d) = Ok VNone)
  \/ (typed_without_value d = false
      /\ exists r, normalize_contact (VDict d) = Ok (VDict r)
                   /\ normalize_contact (VDict r) = Ok (VDict r)).
Proof.
  unfold typed_without_value.
  destruct (contact_untyped_result_settles d) as (u & Hu & Su).
  destruct (dict_get d "type") as [t|] eqn:Ht.
  - destruct (dict_get d "value") as [v|] eqn:Hv.
    + destruct (truthy t) eqn:Tt.
      * pose proof (contact_typed_prefix d t v Ht Hv Tt) as H.
        destruct (truthy v); [right | left; auto]. split; [reflexivity|].
        destruct (eq_str t "email"); [eexists; split; [exact H | reflexivity]|].
        destruct (eq_str t "uri" || eq_str t "url");
          [eexists; split; [exact H | reflexivity]|].
        destruct (eq_str t "phone"); [eexists; split; [exact H | reflexivity]|].
        rewrite Hu in H. exists u. auto.
      * right. split; [reflexivity|].
        assert (H : normalize_contact (VDict d) = Ok (VDict u)).
        { rewrite <- Hu. apply contact_untyped. now rewrite Ht, Tt. }
        exists u. auto.
    + right. split; [reflexivity|].
      assert (H : normalize_contact (VDict d) = Ok (VDict u)).
      { rewrite <- Hu. apply contact_untyped. rewrite Ht. unfold dict_mem.
        rewrite Hv. apply andb_false_r. }
      exists u. auto.
  - right. split; [reflexivity|].
    assert (H : normalize_contact (VDict d) = Ok (VDict u)).
    { rewrite <- Hu. apply contact_untyped. now rewrite Ht. }
    exists u. auto.
Qed.

(** X3: on a mapping [normalize_contact] never raises.  It returns [None]
    exactly when the mapping has a truthy type and a falsy value under
    "value"; in every other case it returns a mapping. *)
Theorem normalize_contact_on_mapping (d : dict) :
  exists r, normalize_contact (VDict d) = Ok r
            /\ (r = VNone <-> typed_without_value d = true)
            /\ (r <> VNone -> is_mapping r = true).
Proof.
  destruct (normalize_contact_cases d) as [[T H] | (T & r & H & _)].
  - exists VNone. split; [exact H|]. split; [tauto | congruence].
  - exists (VDict r). rewrite T. split; [exact H|]. split; [split; discriminate | reflexivity].
Qed.

(** X4: a contact that [normalize_contact] returned comes back unchanged
    from a second call. *)
Theorem normalize_contact_settles (d : dict) (r : value) :
  normalize_contact (VDict d) = Ok r -> r <> VNone ->
  normalize_contact r = Ok r.
Proof.
  intros H N. destruct (normalize_contact_cases d) as [[_ H'] | (_ & r' & H' & S)].
  - congruence.
  - rewrite H' in H. injection H as <-. exact S.
Qed.

Lemma normalize_contact_settles_witness :
  normalize_contact (VDict [("email", VStr "a@b.com")])
  = Ok (VDict [("email", VStr "a@b.com")]).
Proof.
  apply (normalize_contact_settles
           [("type", VStr "email"); ("value", VStr "a@b.com")]).
  - reflexivity.
  - discriminate.
Defined.

(** ** [ensure_formatted_string_content] on mappings *)

(** X5: on a mapping [ensure_formatted_string_content] raises exactly when
    "content" is present and falsy, and then with [TypeError]; when it
    returns, the result is a mapping that has a "content" and holds under
    every other key what the input held. *)
Theorem ensure_formatted_string_content_on_mapping (d : dict) :
  (ensure_formatted_string_content (VDict d) = Raise TypeError <->
   exists c, dict_get d "content" = Some c /\ truthy c = false)
  /\ (forall e, ensure_formatted_string_content (VDict d) = Raise e -> e = TypeError)
  /\ (forall r, ensure_formatted_string_content (VDict d) = Ok r ->
       exists d', r = VDict d' /\ dict_mem d' "content" = true
                  /\ forall k, k <> "content" -> dict_get d' k = dict_get d k).
Proof.
  destruct (dict_get d "content") as [c|] eqn:E.
  - destruct (truthy c) eqn:T.
    + rewrite (ensure_content_truthy d c E T). split; [|split].
      * split; [discriminate|]. intros (c' & [= <-] & T'). congruence.
      * discriminate.
      * intros r [= <-]. exists d. unfold dict_mem. rewrite E. auto.
    + rewrite (ensure_content_falsy d c E T). split; [|split].
      * split; eauto.
      * now intros e [= <-].
      * discriminate.
  - rewrite (ensure_content_absent d E). split; [|split].
    + split; [discriminate|]. intros (c & H & _). discriminate.
    + discriminate.
    + intros r [= <-]. eexists. split; [reflexivity|]. split; [reflexivity|].
      intros k N. cbn [dict_get]. destruct (String.eqb "content" k) eqn:Ek; [|reflexivity].
      apply String.eqb_eq in Ek. congruence.
Qed.

(** ** The steps of [normalize_relaxed] *)

Lemma normalize_versions_ok (versions : list value) :
  normalize_versions versions = Ok (map draft_of_string versions).
Proof.
  unfold normalize_versions. induction versions as [|item rest IH]; [reflexivity|].
  simpl. rewrite IH. now destruct item.
Qed.

Lemma step_version_result (d : dict) :
  step_version (VDict d)
  = (match dict_get d "version" with
     | Some version =>
         if nonempty (as_list version)
         then VDict (dict_set d "version" (normalized_version version))
         else VDict d
     | None => VDict d
     end, Ok tt).
Proof.
  unfold step_version, seq, get_, try_pass, lift, setitem, normalized_version. simpl.
  destruct (dict_get d "version") as [version|]; [|reflexivity].
  destruct (nonempty (as_list version)); [|reflexivity].
  now rewrite normalize_versions_ok.
Qed.

Lemma dict_set_same (d : dict) (k : string) (v : value) :
  dict_get d k = Some v -> dict_set d k v = d.
Proof.
  induction d as [|[k' v'] d IH]; simpl; [discriminate|].
  destruct (String.eqb k' k); [now intros [= ->]|].
  intros H. now rewrite IH.
Qed.

Lemma step_edition_result (d : dict) :
  step_edition (VDict d)
  = (match dict_get d "edition" with
     | Some edition => VDict (dict_set d "edition" (normalized_edition edition))
     | None => VDict d
     end, Ok tt).
Proof.
  unfold step_edition, seq, get_, ret, setitem, normalized_edition. simpl.
  destruct (dict_get d "edition") as [edition|] eqn:E; [|reflexivity].
  destruct (truthy edition) eqn:T.
  - destruct edition; try (rewrite (dict_set_same _ _ _ E); reflexivity). reflexivity.
  - destruct edition; rewrite (dict_set_same _ _ _ E); reflexivity.
Qed.

Lemma comprehension_total {A B : Type} (f : A -> outcome B) (l : list A) :
  (forall x, exists y, f x = Ok y) ->
  exists ys, comprehension f l = Ok ys /\ Forall2 (fun x y => f x = Ok y) l ys.
Proof.
  intros Hf. induction l as [|x rest (ys & E & F)].
  - exists []. split; [reflexivity | constructor].
  - destruct (Hf x) as [y Hy]. exists (y :: ys). simpl. rewrite Hy, E. simpl.
    split; [reflexivity | now constructor].
Qed.

Lemma seq_frame_after {A B : Type} (k : string) (m : proc A) (f : A -> proc B)
    (obj o1 : value) (a : A) :
  m obj = (o1, Ok a) -> frames k (f a) -> frame k o1 (fst (seq m f obj)).
Proof.
  intros H F. unfold seq. rewrite H. apply F.
Qed.

Lemma held_frame (k : string) (default : value) (d : dict) (obj : value) :
  frame k (VDict d) obj -> held k default obj = held k default (VDict d).
Proof.
  intros F. destruct (F d eq_refl) as (d' & -> & E). simpl. now rewrite E.
Qed.

Lemma held_set (k : string) (default v : value) (d : dict) :
  held k default (VDict (dict_set d k v)) = v.
Proof. simpl. now rewrite dict_get_set_eq. Qed.

Notation "m ;;; k" := (seq m (fun _ => k))
  (at level 100, right associativity) : py_scope.

Section StepsOfNormalizeRelaxed.

Variable py_str : value -> string.
Variable self : value -> value * outcome value.

Lemma returning_frames (k : string) : frames k (fun data : value => (data, Ok data)).
Proof. intros obj. apply frame_refl. Qed.

Lemma after_keyword_frames (k : string) :
  k <> "contributor" -> k <> "relation" ->
  frames k (step_contributor py_str ;;; step_relation self ;;;
            (fun data => (data, Ok data))).
Proof.
  intros. apply frames_seq; [now apply step_contributor_frames | intros _].
  apply frames_seq; [now apply step_relation_frames | intros _].
  apply returning_frames.
Qed.

Lemma after_edition_frames (k : string) :
  k <> "keyword" -> k <> "contributor" -> k <> "relation" ->
  frames k (step_keyword py_str ;;; step_contributor py_str ;;; step_relation self ;;;
            (fun data => (data, Ok data))).
Proof.
  intros. apply frames_seq; [now apply step_keyword_frames | intros _].
  now apply after_keyword_frames.
Qed.

Lemma after_version_frames (k : string) :
  k <> "edition" -> k <> "keyword" -> k <> "contributor" -> k <> "relation" ->
  frames k (step_edition ;;; step_keyword py_str ;;; step_contributor py_str ;;;
            step_relation self ;;; (fun data => (data, Ok data))).
Proof.
  intros. apply frames_seq; [now apply step_edition_frames | intros _].
  now apply after_edition_frames.
Qed.

Lemma step_version_ok (d : dict) (k : string) :
  k <> "version" ->
  exists d1, step_version (VDict d) = (VDict d1, Ok tt) /\ dict_get d1 k = dict_get d k.
Proof.
  intros N. rewrite step_version_result.
  destruct (dict_get d "version") as [version|]; [|eauto].
  destruct (nonempty (as_list version)); [|eauto].
  eexists. split; [reflexivity|]. apply dict_get_set_ne. congruence.
Qed.


Lemma version_after_body (d : dict) (version : value) :
  dict_get d "version" = Some version ->
  held "version" VNone (fst (normalize_relaxed_body py_str self (VDict d)))
  = normalized_version version.
Proof.
  intros H. pose proof (step_version_result d) as S. rewrite H in S.
  unfold normalize_relaxed_body, normalized_version in *.
  destruct (nonempty (as_list version)).
  - erewrite held_frame;
      [apply held_set
      | eapply seq_frame_after; [exact S | intros; now apply after_version_frames]].
  - erewrite held_frame;
      [simpl; now rewrite H
      | eapply seq_frame_after; [exact S | intros; now apply after_version_frames]].
Qed.

Lemma edition_after_body (d : dict) (edition : value) :
  dict_get d "edition" = Some edition ->
  held "edition" VNone (fst (normalize_relaxed_body py_str self (VDict d)))
  = normalized_edition edition.
Proof.
  intros H. destruct (step_version_ok d "edition") as (d1 & S1 & E1); [discriminate|].
  unfold normalize_relaxed_body, seq at 1. rewrite S1.
  pose proof (step_edition_result d1) as S2. rewrite E1, H in S2.
  erewrite held_frame;
    [apply held_set
    | eapply seq_frame_after; [exact S2 | intros; now apply after_edition_frames]].
Qed.


Lemma to_plain_string_is_string (raw y : value) :
  to_plain_string py_str raw = Ok y -> is_string y = true.
Proof.
  destruct raw; simpl; try (intros [= <-]; reflexivity).
  destruct (truthy _); intros [= <-]; reflexivity.
Qed.


End StepsOfNormalizeRelaxed.

(** ** What [normalize_relaxed] does to each field *)

Section FieldsAfterNormalizeRelaxed.

Variable py_str : value -> string.

(** X6: however the call ends, a record that had a "version" holds under
    it the list of its version entries, each string wrapped as
    [{draft: string}] and every other entry as it was; a single value
    counts as a list of one, and [None] or an empty list is left alone. *)
Theorem version_after_normalize_relaxed (d : dict) (version : value) :
  dict_get d "version" = Some version ->
  held "version" VNone (fst (normalize_relaxed py_str (VDict d)))
  = normalized_version version.
Proof.
  intros H. rewrite normalize_relaxed_unfold. now apply version_after_body.
Qed.

(** X7: however the call ends, a record that had an "edition" holds under
    it [{content: edition}] if the edition was a non-empty string, and the
    edition as it was otherwise. *)
Theorem edition_after_normalize_relaxed (d : dict) (edition : value) :
  dict_get d "edition" = Some edition ->
  held "edition" VNone (fst (normalize_relaxed py_str (VDict d)))
  = normalized_edition edition.
Proof.
  intros H. rewrite normalize_relaxed_unfold. now apply edition_after_body.
Qed.


(** X9: however the call ends, a mapping is still a mapping afterwards, and
    it holds under every key other than "version", "edition", "keyword",
    "contributor" and "relation" what it held before. *)
Theorem normalize_relaxed_leaves_other_keys (d : dict) (k : string) :
  ~ In k normalized_keys ->
  exists d', fst (normalize_relaxed py_str (VDict d)) = VDict d'
             /\ dict_get d' k = dict_get d k.
Proof.
  intros N. rewrite normalize_relaxed_unfold.
  apply (normalize_relaxed_body_frames py_str k (normalize_relaxed py_str));
    try reflexivity; intros ->; apply N; simpl; tauto.
Qed.

End FieldsAfterNormalizeRelaxed.

Lemma version_after_normalize_relaxed_witness :
  held "version" VNone
    (fst (normalize_relaxed str_of_example
            (VDict [("version", VList [VStr "1.0"; VDict [("draft", VStr "2")]]);
                    ("keyword", VInt 5)])))
  = VList [VDict [("draft", VStr "1.0")]; VDict [("draft", VStr "2")]].
Proof.
  apply (version_after_normalize_relaxed str_of_example
           [("version", VList [VStr "1.0"; VDict [("draft", VStr "2")]]);
            ("keyword", VInt 5)]
           (VList [VStr "1.0"; VDict [("draft", VStr "2")]])).
  reflexivity.
Defined.

Lemma edition_after_normalize_relaxed_witness :
  held "edition" VNone
    (fst (normalize_relaxed str_of_example (VDict [("edition", VStr "2nd")])))
  = VDict [("content", VStr "2nd")].
Proof.
  apply (edition_after_normalize_relaxed str_of_example [("edition", VStr "2nd")]
           (VStr "2nd")).
  reflexivity.
Defined.


Lemma normalize_relaxed_leaves_other_keys_witness :
  exists d', fst (normalize_relaxed str_of_example
                    (VDict [("docid", VList [VDict [("id", VStr "RFC 1")]]);
                            ("edition", VStr "2nd")])) = VDict d'
             /\ dict_get d' "docid"
                = dict_get [("docid", VList [VDict [("id", VStr "RFC 1")]]);
                            ("edition", VStr "2nd")] "docid".
Proof.
  apply (normalize_relaxed_leaves_other_keys str_of_example
           [("docid", VList [VDict [("id", VStr "RFC 1")]]); ("edition", VStr "2nd")]
           "docid").
  simpl. intros [H|[H|[H|[H|[H|[]]]]]]; discriminate H.
Defined.

(** ** The keys of the record *)

Lemma same_keys_refl (obj : value) : same_keys obj obj.
Proof. intros d ->. eauto. Qed.

Lemma same_keys_trans (a b c : value) : same_keys a b -> same_keys b c -> same_keys a c.
Proof.
  intros Hab Hbc d Ha. destruct (Hab d Ha) as (d' & Hb & E).
  destruct (Hbc d' Hb) as (d'' & Hc & E'). exists d''. split; congruence.
Qed.

Lemma dict_set_keys (d : dict) (k : string) (v : value) :
  dict_mem d k = true -> map fst (dict_set d k v) = map fst d.
Proof.
  unfold dict_mem. induction d as [|[k' v'] d IH]; simpl; [discriminate|].
  destruct (String.eqb k' k); [reflexivity|]. intros H. simpl. now rewrite IH.
Qed.

Lemma same_keys_set (d : dict) (k : string) (v : value) :
  dict_mem d k = true -> same_keys (VDict d) (VDict (dict_set d k v)).
Proof.
  intros H d0 [= <-]. eexists. split; [reflexivity|]. now apply dict_set_keys.
Qed.

Lemma same_keys_store (k : string) (child : value) (obj : value) :
  same_keys obj (store k child obj).
Proof.
  intros d ->. simpl. destruct (dict_mem d k) eqn:M; [|eauto].
  eexists. split; [reflexivity|]. now apply dict_set_keys.
Qed.

Lemma keeps_keys_seq {A B : Type} (m : proc A) (f : A -> proc B) :
  keeps_keys m -> (forall a, keeps_keys (f a)) -> keeps_keys (seq m f).
Proof.
  intros Hm Hf obj. specialize (Hm obj). unfold seq.
  destruct (m obj) as [o [a|e]]; simpl in *; [|exact Hm].
  eapply same_keys_trans; [exact Hm | apply Hf].
Qed.

Lemma mem_of_truthy_default (d : dict) (k : string) :
  truthy (match dict_get d k with Some v => v | None => VList [] end) = true ->
  dict_mem d k = true.
Proof.
  unfold dict_mem. now destruct (dict_get d k).
Qed.

Section KeysOfTheRecord.

Variable py_str : value -> string.

Lemma step_version_keeps_keys : keeps_keys step_version.
Proof.
  intros [| | | | |d]; try (now intros ? [=]). rewrite step_version_result.
  destruct (dict_get d "version") as [version|] eqn:E; [|apply same_keys_refl].
  destruct (nonempty (as_list version)); [|apply same_keys_refl].
  apply same_keys_set. unfold dict_mem. now rewrite E.
Qed.

Lemma step_edition_keeps_keys : keeps_keys step_edition.
Proof.
  intros [| | | | |d]; try (now intros ? [=]). rewrite step_edition_result.
  destruct (dict_get d "edition") as [edition|] eqn:E; [|apply same_keys_refl].
  apply same_keys_set. unfold dict_mem. now rewrite E.
Qed.

Lemma step_keyword_keeps_keys : keeps_keys (step_keyword py_str).
Proof.
  intros [| | | | |d]; try (now intros ? [=]).
  unfold step_keyword, seq, get_, lift, setitem, ret. simpl.
  destruct (truthy _) eqn:T; [|apply same_keys_refl].
  apply mem_of_truthy_default in T.
  destruct (py_iter _) as [items|e]; [|apply same_keys_refl].
  destruct (comprehension _ items) as [plain|e]; [|apply same_keys_refl].
  now apply same_keys_set.
Qed.

Lemma step_contributor_keeps_keys : keeps_keys (step_contributor py_str).
Proof.
  intros [| | | | |d]; try (now intros ? [=]).
  unfold step_contributor, seq, get_, lift. simpl.
  destruct (py_iter _) as [items|e]; [|apply same_keys_refl].
  destruct (for_each _ items). simpl.
  destruct (dict_mem d "contributor") eqn:M; [now apply same_keys_set | apply same_keys_refl].
Qed.

Lemma step_relation_keeps_keys (self : value -> value * outcome value) :
  keeps_keys (step_relation self).
Proof.
  intros [| | | | |d]; try (now intros ? [=]).
  unfold step_relation, seq, get_, lift, setitem, ret. simpl.
  destruct (truthy _) eqn:T; [|apply same_keys_refl].
  apply mem_of_truthy_default in T.
  destruct (py_iter _) as [items|e]; [|apply same_keys_refl].
  destruct (relation_comprehension self items) as [items' [out|e]].
  - now apply same_keys_set.
  - simpl. rewrite T. now apply same_keys_set.
Qed.

Lemma normalize_relaxed_body_keeps_keys (self : value -> value * outcome value) :
  keeps_keys (normalize_relaxed_body py_str self).
Proof.
  unfold normalize_relaxed_body.
  apply keeps_keys_seq; [apply step_version_keeps_keys | intros _].
  apply keeps_keys_seq; [apply step_edition_keeps_keys | intros _].
  apply keeps_keys_seq; [apply step_keyword_keeps_keys | intros _].
  apply keeps_keys_seq; [apply step_contributor_keeps_keys | intros _].
  apply keeps_keys_seq; [apply step_relation_keeps_keys | intros _].
  intros obj. apply same_keys_refl.
Qed.

(** X10: however the call ends, [normalize_relaxed] leaves a mapping with
    the keys it had, in the order it had them: no top-level key is added,
    removed or moved. *)
Theorem normalize_relaxed_keeps_the_keys (d : dict) :
  exists d', fst (normalize_relaxed py_str (VDict d)) = VDict d'
             /\ map fst d' = map fst d.
Proof.
  rewrite normalize_relaxed_unfold.
  now apply (normalize_relaxed_body_keeps_keys (normalize_relaxed py_str) (VDict d) d).
Qed.

(** X11: a record that has none of the keys "version", "edition",
    "keyword", "contributor" and "relation" (the empty record, say) is
    returned as it is. *)
Theorem normalize_relaxed_without_its_keys (d : dict) :
  (forall k, In k normalized_keys -> dict_get d k = None) ->
  normalize_relaxed py_str (VDict d) = (VDict d, Ok (VDict d)).
Proof.
  intros H.
  assert (Hv : dict_get d "version" = None) by (apply H; simpl; tauto).
  assert (He : dict_get d "edition" = None) by (apply H; simpl; tauto).
  assert (Hk : dict_get d "keyword" = None) by (apply H; simpl; tauto).
  assert (Hc : dict_get d "contributor" = None) by (apply H; simpl; tauto).
  assert (Hr : dict_get d "relation" = None) by (apply H; simpl; tauto).
  rewrite normalize_relaxed_unfold. unfold normalize_relaxed_body.
  unfold seq at 1. rewrite step_version_result, Hv.
  unfold seq at 1. rewrite step_edition_result, He.
  unfold seq at 1. unfold step_keyword, seq at 1, get_. simpl. rewrite Hk. simpl.
  unfold seq at 1. unfold step_contributor, seq, get_, lift. simpl. rewrite Hc. simpl.
  unfold dict_mem. rewrite Hc.
  unfold step_relation, seq, get_. simpl. rewrite Hr. reflexivity.
Qed.

End KeysOfTheRecord.

Lemma normalize_relaxed_without_its_keys_witness :
  normalize_relaxed str_of_example (VDict [("title", VStr "X"); ("docid", VList [])])
  = (VDict [("title", VStr "X"); ("docid", VList [])],
     Ok (VDict [("title", VStr "X"); ("docid", VList [])])).
Proof.
  apply (normalize_relaxed_without_its_keys str_of_example).
  simpl. intros k [<-|[<-|[<-|[<-|[<-|[]]]]]]; reflexivity.
Defined.

(** ** Roles and contacts of a contributor *)

Lemma comprehension_total_on {A B : Type} (f : A -> outcome B) (l : list A) :
  Forall (fun x => exists y, f x = Ok y) l ->
  exists ys, comprehension f l = Ok ys /\ Forall2 (fun x y => f x = Ok y) l ys.
Proof.
  induction 1 as [|x rest [y Hy] _ (ys & E & F)].
  - exists []. split; [reflexivity | constructor].
  - exists (y :: ys). simpl. rewrite Hy, E. simpl. split; [reflexivity | now constructor].
Qed.

Lemma Forall2_In_r {A B : Type} (R : A -> B -> Prop) (l : list A) (l' : list B) (y : B) :
  Forall2 R l l' -> In y l' -> exists x, In x l /\ R x y.
Proof.
  induction 1 as [|x y' l l' Hxy _ IH]; simpl; [tauto|].
  intros [<- | H]; [eauto|]. destruct (IH H) as (x' & ? & ?). eauto.
Qed.


Lemma nonempty_as_list_of_truthy (v : value) :
  truthy v = true -> nonempty (as_list v) = true.
Proof. destruct v as [| | | |[|]|]; simpl; intros; try reflexivity; discriminate. Qed.

Section RolesAndContacts.

Variable py_str : value -> string.

Lemma normalize_role_returns_role (raw : value) :
  exists r, normalize_role py_str raw = Ok r
            /\ exists d, r = VDict d /\ names_type_or_description d = true.
Proof.
  unfold names_type_or_description.
  destruct raw as [| | | | |d]; simpl; try (eexists; split; [|eexists; split]; reflexivity).
  destruct (dict_mem d "type" || dict_mem d "description") eqn:E.
  - exists (VDict d). eauto.
  - eexists; split; [|eexists; split]; reflexivity.
Qed.


End RolesAndContacts.

Lemma normalize_contact_total_on_mappings (contacts : list value) :
  Forall (fun x => exists y, normalize_contact x = Ok y)
    (List.filter is_mapping contacts).
Proof.
  apply List.Forall_forall. intros x Hx. apply filter_In in Hx as [_ Hx].
  destruct x as [| | | | |d]; try discriminate.
  destruct (normalize_contact_cases d) as [[_ H] | (_ & r & H & _)]; eauto.
Qed.



(** ** More on [get_primary_docid] *)

Lemma filter_head {A : Type} (f : A -> bool) (l : list A) (x : A) (rest : list A) :
  List.filter f l = x :: rest ->
  exists before after,
    l = (before ++ x :: after)%list /\ f x = true
    /\ List.Forall (fun y => f y = false) before.
Proof.
  induction l as [|a l IH]; simpl; [discriminate|].
  destruct (f a) eqn:E.
  - intros [= -> <-]. exists [], l. auto.
  - intros H. destruct (IH H) as (before & after & -> & Hx & Hb).
    exists (a :: before), after. auto.
Qed.

Lemma filter_nil {A : Type} (f : A -> bool) (l : list A) :
  List.filter f l = [] <-> List.Forall (fun y => f y = false) l.
Proof.
  induction l as [|a l IH]; simpl; [split; auto|].
  destruct (f a) eqn:E; split.
  - discriminate.
  - intros H. inversion H; congruence.
  - intros H. constructor; [exact E | now apply IH].
  - intros H. inversion H. now apply IH.
Qed.

Lemma deduped_one (first : DocID.t) (rest : list DocID.t) :
  size (deduped (first :: rest)) = 1
  <-> List.Forall (fun y => id_type_set y = id_type_set first) rest.
Proof.
  unfold deduped. split.
  - intros H. apply size_1_elem_of in H as [z Hz].
    assert (Hin : forall y, In y (first :: rest) -> id_type_set y = z).
    { intros y Hy.
      assert (Hm : id_type_set y ∈
                   (list_to_set (map id_type_set (first :: rest))
                    : gset (gset (option string)))).
      { apply elem_of_list_to_set. apply list_elem_of_In. now apply in_map. }
      rewrite Hz in Hm. now apply elem_of_singleton in Hm. }
    apply List.Forall_forall. intros y Hy.
    rewrite (Hin y) by now right. symmetry. apply Hin. now left.
  - intros H.
    assert (E : (list_to_set (map id_type_set (first :: rest))
                 : gset (gset (option string))) = {[ id_type_set first ]}).
    { apply set_eq. intros s.
      rewrite elem_of_list_to_set, elem_of_singleton, list_elem_of_In, in_map_iff.
      split.
      - intros (y & <- & [<- | Hy]); [reflexivity|].
        rewrite List.Forall_forall in H. now apply H.
      - intros ->. exists first. split; [reflexivity | now left]. }
    rewrite E. apply size_singleton.
Qed.

(** X14: the identifier that [get_primary_docid] returns is the first
    entry of the input, in input order, that is flagged primary with an id,
    a type and no scope.  It returns [None] exactly when the input has no
    such entry (an empty input, say), and then it logs a warning that
    reports 0 identifiers. *)
Theorem get_primary_docid_returns_first_primary (raw_ids : list DocID.t) :
  (forall x, fst (get_primary_docid raw_ids) = Some x ->
             exists before after,
               raw_ids = (before ++ x :: after)%list /\ is_primary x = true
               /\ List.Forall (fun y => is_primary y = false) before)
  /\ (fst (get_primary_docid raw_ids) = None <->
      List.Forall (fun y => is_primary y = false) raw_ids)
  /\ (fst (get_primary_docid raw_ids) = None ->
      snd (get_primary_docid raw_ids) = [UnexpectedPrimaryCount raw_ids 0]).
Proof.
  unfold get_primary_docid.
  destruct (List.filter is_primary raw_ids) as [|first rest] eqn:E; simpl.
  - split; [discriminate|]. split; [|reflexivity].
    split; [intros _; now apply filter_nil | reflexivity].
  - split; [|split].
    + intros x [= <-]. now apply (filter_head _ _ _ rest).
    + split; [discriminate|]. intros H. apply filter_nil in H. congruence.
    + discriminate.
Qed.

Lemma get_primary_docid_returns_first_primary_witness :
  (exists before after,
      [DocID.mk (Some "X") (Some "DOI") (Some "part") (Some true);
       primary_docid "A" "DOI"; primary_docid "B" "ISBN"]
      = (before ++ primary_docid "A" "DOI" :: after)%list
      /\ is_primary (primary_docid "A" "DOI") = true
      /\ List.Forall (fun y => is_primary y = false) before)
  /\ snd (get_primary_docid []) = [UnexpectedPrimaryCount [] 0].
Proof.
  split.
  - apply (get_primary_docid_returns_first_primary
             [DocID.mk (Some "X") (Some "DOI") (Some "part") (Some true);
              primary_docid "A" "DOI"; primary_docid "B" "ISBN"]).
    reflexivity.
  - apply (get_primary_docid_returns_first_primary []). reflexivity.
Defined.

(** X15: [get_primary_docid] logs nothing exactly when at least one entry
    qualifies and all qualifying entries have the same set of id and type
    as the first; otherwise it logs one warning, which carries the whole
    input and the number of qualifying entries, a number that is never 1. *)
Theorem get_primary_docid_warns_unless_one_key (raw_ids : list DocID.t) :
  (snd (get_primary_docid raw_ids) = [] <->
   exists first rest,
     List.filter is_primary raw_ids = first :: rest
     /\ List.Forall (fun y => id_type_set y = id_type_set first) rest)
  /\ (snd (get_primary_docid raw_ids) = []
      \/ exists found,
           snd (get_primary_docid raw_ids) = [UnexpectedPrimaryCount raw_ids found]
           /\ found = length (List.filter is_primary raw_ids) /\ found <> 1).
Proof.
  unfold get_primary_docid.
  destruct (List.filter is_primary raw_ids) as [|first rest] eqn:E.
  - simpl. split.
    + split; [discriminate|]. intros (f & r & H & _). discriminate.
    + right. exists 0. auto.
  - pose proof (deduped_one first rest) as D.
    destruct (Nat.eqb_spec (size (deduped (first :: rest))) 1) as [S|S]; simpl.
    + split; [|now left]. split; [|reflexivity]. intros _.
      exists first, rest. split; [reflexivity | now apply D].
    + split.
      * split; [discriminate|]. intros (f & r & [= <- <-] & H). now apply D in H.
      * right. eexists. split; [reflexivity|]. split; [reflexivity|].
        destruct rest; [|discriminate]. exfalso. apply S, D. constructor.
Qed.

Lemma get_primary_docid_warns_unless_one_key_witness :
  snd (get_primary_docid [primary_docid "A" "DOI"; primary_docid "A" "DOI"]) = [].
Proof.
  apply (get_primary_docid_warns_unless_one_key
           [primary_docid "A" "DOI"; primary_docid "A" "DOI"]).
  exists (primary_docid "A" "DOI"), [primary_docid "A" "DOI"].
  split; [reflexivity|]. constructor; [reflexivity | constructor].
Defined.

(** ** More on [construct_bibitem] *)

Section ConstructBibitemModes.

Variable py_str : value -> string.
Variable BibliographicItem : Type.
Variable BibliographicItem_init : value -> outcome BibliographicItem.
Variable BibliographicItem_construct : value -> BibliographicItem.

Local Abbreviation construct_bibitem' :=
  (construct_bibitem py_str BibliographicItem BibliographicItem_init
     BibliographicItem_construct).

(** X16: whatever [data] is, if the schema accepts it as
    [normalize_relaxed] leaves it, then [construct_bibitem] returns that
    item with no errors ([None]) and logs nothing, in strict mode and in
    lenient mode alike. *)
Theorem construct_bibitem_accepted (data : value) (item : BibliographicItem)
    (strict : bool) :
  BibliographicItem_init (fst (normalize_relaxed py_str data)) = Ok item ->
  construct_bibitem' data strict
  = (fst (normalize_relaxed py_str data), [], Ok (item, None)).
Proof.
  unfold construct_bibitem.
  destruct (normalize_relaxed py_str data) as [data' r]. simpl. intros H.
  destruct strict; rewrite H; reflexivity.
Qed.

(** X17: in lenient mode, when the schema rejects the normalized record
    with a validation error, exactly one warning is logged; it carries the
    validation error and what the record given by the caller held under
    "docid", or "docid N/A" if it had no such key. *)
Theorem construct_bibitem_lenient_warning (d : dict) (errs : list value) :
  BibliographicItem_init (fst (normalize_relaxed py_str (VDict d)))
  = Raise (ValidationError errs) ->
  snd (fst (construct_bibitem' (VDict d) false))
  = [UnexpectedFormat
       (match dict_get d "docid" with Some docid => docid | None => VStr "docid N/A" end)
       (ValidationError errs)].
Proof.
  destruct (normalize_relaxed_keeps_mapping py_str d) as (d' & Hd & Hdocid).
  unfold construct_bibitem.
  destruct (normalize_relaxed py_str (VDict d)) as [data' r]. simpl in *. subst data'.
  intros H. rewrite H. simpl. now rewrite Hdocid.
Qed.

(** X18: whatever [data] is, it is left by [construct_bibitem] as
    [normalize_relaxed] leaves it, in both modes and however the call ends;
    and unless the schema raises a validation error, a strict call and a
    lenient call log and return (or raise) the same. *)
Theorem construct_bibitem_modes_agree (data : value) :
  (forall strict,
      fst (fst (construct_bibitem' data strict)) = fst (normalize_relaxed py_str data))
  /\ ((forall errs, BibliographicItem_init (fst (normalize_relaxed py_str data))
                    <> Raise (ValidationError errs)) ->
      construct_bibitem' data true = construct_bibitem' data false).
Proof.
  unfold construct_bibitem.
  destruct (normalize_relaxed py_str data) as [data' r]. simpl. split.
  - intros [|]; [reflexivity|].
    destruct (BibliographicItem_init data') as [item|[]]; try reflexivity.
    now destruct (py_get data' "docid" (VStr "docid N/A")).
  - intros H. destruct (BibliographicItem_init data') as [item|[]]; try reflexivity.
    now destruct (H errors).
Qed.

End ConstructBibitemModes.

Lemma construct_bibitem_accepted_witness :
  construct_bibitem str_of_example value toy_schema (fun data => data)
    (VDict [("docid", VList []); ("edition", VStr "2")]) false
  = (fst (normalize_relaxed str_of_example
            (VDict [("docid", VList []); ("edition", VStr "2")])),
     [],
     Ok (VDict [("docid", VList []); ("edition", VDict [("content", VStr "2")])], None)).
Proof.
  apply (construct_bibitem_accepted str_of_example value toy_schema (fun data => data)).
  reflexivity.
Defined.

Lemma construct_bibitem_lenient_warning_witness :
  snd (fst (construct_bibitem str_of_example value toy_schema (fun data => data)
              (VDict [("edition", VStr "2")]) false))
  = [UnexpectedFormat (VStr "docid N/A")
       (ValidationError [VDict [("loc", VStr "docid"); ("msg", VStr "field required")]])].
Proof.
  apply (construct_bibitem_lenient_warning str_of_example value toy_schema
           (fun data => data) [("edition", VStr "2")]).
  reflexivity.
Defined.

Lemma construct_bibitem_modes_agree_witness :
  construct_bibitem str_of_example value toy_schema (fun data => data) (VInt 3) true
  = construct_bibitem str_of_example value toy_schema (fun data => data) (VInt 3) false.
Proof.
  apply (construct_bibitem_modes_agree str_of_example value toy_schema
           (fun data => data) (VInt 3)).
  intros errs. discriminate.
Defined.

(** ** Running [normalize_relaxed] twice *)

Lemma seq_assoc {A B C : Type} (m : proc A) (f : A -> proc B) (g : B -> proc C)
    (obj : value) :
  seq (seq m f) g obj = seq m (fun a => seq (f a) g) obj.
Proof.
  unfold seq. destruct (m obj) as [o [a|e]]; reflexivity.
Qed.

Lemma frames_dict {A : Type} (k : string) (m : proc A) (d : dict) (o : value)
    (r : outcome A) :
  frames k m -> m (VDict d) = (o, r) -> exists d1, o = VDict d1.
Proof.
  intros F H. destruct (F (VDict d) d eq_refl) as (d1 & E & _).
  rewrite H in E. eauto.
Qed.

Lemma settles_on_ext {A : Type} (ks : list string) (m m' : proc A) :
  (forall obj, m obj = m' obj) -> settles_on ks m -> settles_on ks m'.
Proof.
  intros E S d d1 d' o2 u u'. rewrite <- !E. apply S.
Qed.

Lemma settles_on_seq {A B : Type} (ks1 ks2 : list string) (k0 : string)
    (m1 : proc A) (m2 : proc B) :
  settles_on ks1 m1 -> settles_on ks2 m2 ->
  (forall k, In k ks1 -> frames k m2) -> frames k0 m1 ->
  settles_on (ks1 ++ ks2) (seq m1 (fun _ => m2)).
Proof.
  intros S1 S2 F2 F1 d d2 d' o2 u u' H1 K H2.
  apply seq_ok in H1 as (a & o1 & Ha & Hb).
  apply seq_ok in H2 as (a' & p1 & Ha' & Hb').
  destruct (frames_dict _ _ _ _ _ F1 Ha) as [d1 ->].
  assert (p1 = VDict d') as ->.
  { apply (S1 d d1 d' p1 a a' Ha); [|exact Ha'].
    intros k Hk. rewrite K by (apply in_or_app; now left).
    destruct (F2 k Hk (VDict d1) d1 eq_refl) as (dx & E & Ek).
    rewrite Hb in E. injection E as <-. exact Ek. }
  apply (S2 d1 d2 d' o2 u u' Hb); [|exact Hb'].
  intros k Hk. apply K, in_or_app. now right.
Qed.

Lemma settles_then_settled {A : Type} (ks : list string) (m : proc A) :
  settles_on ks m ->
  (forall obj o1 u, m obj = (o1, Ok u) -> exists d d1, obj = VDict d /\ o1 = VDict d1) ->
  settled_after_one_run m.
Proof.
  intros S D obj o1 o2 u u' H1 H2.
  destruct (D _ _ _ H1) as (d & d1 & -> & ->).
  now apply (S d d1 d1 o2 u u' H1).
Qed.

Lemma store_held (k : string) (default : value) (obj : value) :
  store k (held k default obj) obj = obj.
Proof.
  destruct obj as [| | | | |d]; try reflexivity. simpl. unfold dict_mem.
  destruct (dict_get d k) eqn:E; [|reflexivity]. now rewrite (dict_set_same _ _ _ E).
Qed.

Lemma held_store (k : string) (default child : value) (d : dict) :
  dict_mem d k = true -> held k default (store k child (VDict d)) = child.
Proof.
  intros M. simpl. rewrite M. simpl. now rewrite dict_get_set_eq.
Qed.

Lemma settled_in_place {A : Type} (k : string) (default : value) (m : proc A) :
  settled_after_one_run m -> settled_after_one_run (in_place k default m).
Proof.
  intros I obj o1 o2 u u'. unfold in_place.
  destruct (m (held k default obj)) as [c1 r1] eqn:E1. intros [= <- ->].
  destruct (m (held k default (store k c1 obj))) as [c2 r2] eqn:E2. intros [= <- ->].
  destruct obj as [| | | | |d]; try reflexivity.
  destruct (dict_mem d k) eqn:M.
  - rewrite held_store in E2 by exact M. rewrite (I _ _ _ _ _ E1 E2).
    rewrite <- (held_store k default c1 d M) at 1. apply store_held.
  - simpl. rewrite M. simpl. now rewrite M.
Qed.

Lemma settles_in_place {A : Type} (k : string) (default : value) (m : proc A) :
  settled_after_one_run m -> settles_on [k] (in_place k default m).
Proof.
  intros I d d1 d' o2 u u'. unfold in_place.
  destruct (m (held k default (VDict d))) as [c1 r1] eqn:E1. intros [= E ->] K.
  specialize (K k (or_introl eq_refl)).
  destruct (m (held k default (VDict d'))) as [c2 r2] eqn:E2. intros [= <- ->].
  simpl in E, E1. unfold dict_mem in E.
  destruct (dict_get d k) as [c|] eqn:G.
  - injection E as <-. rewrite dict_get_set_eq in K.
    simpl in E2. rewrite K in E2. rewrite (I _ _ _ _ _ E1 E2).
    simpl. unfold dict_mem. rewrite K. now rewrite (dict_set_same _ _ _ K).
  - injection E as <-. rewrite G in K. simpl. unfold dict_mem. now rewrite K.
Qed.

(** A step that applies [t] to what the dict holds under [k], and
    nothing else, settles if [t] does. *)
Lemma settles_on_key (k : string) (t : value -> value) (m : proc unit) :
  (forall d, m (VDict d)
             = (match dict_get d k with
                | Some v => VDict (dict_set d k (t v))
                | None => VDict d
                end, Ok tt)) ->
  (forall v, t (t v) = t v) ->
  settles_on [k] m.
Proof.
  intros Hm Ht d d1 d' o2 u u'. rewrite !Hm. intros H1 K H2.
  specialize (K k (or_introl eq_refl)).
  destruct (dict_get d k) as [v|] eqn:G; inversion H1; subst d1; clear H1.
  - rewrite dict_get_set_eq in K. rewrite K, Ht in H2.
    rewrite (dict_set_same _ _ _ K) in H2. now inversion H2.
  - rewrite G in K. rewrite K in H2. now inversion H2.
Qed.

Lemma comprehension_ok_inv {A B : Type} (f : A -> outcome B) (l : list A) (ys : list B) :
  comprehension f l = Ok ys -> Forall2 (fun x y => f x = Ok y) l ys.
Proof.
  revert ys. induction l as [|x rest IH]; simpl; intros ys.
  - intros [= <-]. constructor.
  - destruct (f x) as [y|e] eqn:E; [|discriminate]. simpl.
    destruct (comprehension f rest) as [ys'|e]; [|discriminate]. simpl.
    intros [= <-]. constructor; auto.
Qed.

Lemma comprehension_fixed {A : Type} (f : A -> outcome A) (l : list A) :
  List.Forall (fun y => f y = Ok y) l -> comprehension f l = Ok l.
Proof.
  induction 1 as [|y l Hy _ IH]; [reflexivity|]. simpl. now rewrite Hy, IH.
Qed.

Lemma filter_all {A : Type} (f : A -> bool) (l : list A) :
  List.Forall (fun y => f y = true) l -> List.filter f l = l.
Proof.
  induction 1 as [|y l Hy _ IH]; [reflexivity|]. simpl. now rewrite Hy, IH.
Qed.

Lemma draft_of_string_twice (item : value) :
  draft_of_string (draft_of_string item) = draft_of_string item.
Proof. now destruct item. Qed.

Lemma normalized_version_twice (version : value) :
  normalized_version (normalized_version version) = normalized_version version.
Proof.
  unfold normalized_version.
  destruct (nonempty (as_list version)) eqn:N; [|now rewrite N].
  cbn [as_list]. destruct (as_list version) as [|x l]; [discriminate|].
  cbn [map nonempty]. rewrite !draft_of_string_twice, map_map. do 2 f_equal.
  apply map_ext. intros y. apply draft_of_string_twice.
Qed.

Lemma normalized_edition_twice (edition : value) :
  normalized_edition (normalized_edition edition) = normalized_edition edition.
Proof.
  destruct edition as [| | |s| |]; try reflexivity.
  unfold normalized_edition.
  destruct (truthy (VStr s)) eqn:T; [reflexivity | now rewrite T].
Qed.

Lemma step_version_settles : settles_on ["version"] step_version.
Proof.
  apply (settles_on_key "version" normalized_version); [|apply normalized_version_twice].
  intros d. rewrite step_version_result.
  destruct (dict_get d "version") as [version|] eqn:E; [|reflexivity].
  unfold normalized_version. destruct (nonempty (as_list version)); [reflexivity|].
  now rewrite (dict_set_same _ _ _ E).
Qed.

Lemma step_edition_settles : settles_on ["edition"] step_edition.
Proof.
  apply (settles_on_key "edition" normalized_edition); [|apply normalized_edition_twice].
  apply step_edition_result.
Qed.

Lemma normalize_contacts_total (contacts : list value) :
  exists contacts', normalize_contacts contacts = Ok contacts'.
Proof.
  unfold normalize_contacts.
  destruct (comprehension_total_on normalize_contact _
              (normalize_contact_total_on_mappings contacts)) as (normalized & C & _).
  change (List.filter _ contacts) with (List.filter is_mapping contacts).
  rewrite C. simpl. eauto.
Qed.

Lemma normalize_contacts_settles (contacts contacts' : list value) :
  normalize_contacts contacts = Ok contacts' ->
  normalize_contacts contacts' = Ok contacts'.
Proof.
  unfold normalize_contacts.
  change (List.filter _ contacts) with (List.filter is_mapping contacts).
  change (List.filter _ contacts') with (List.filter is_mapping contacts').
  destruct (comprehension normalize_contact (List.filter is_mapping contacts))
    as [normalized|e] eqn:C; [|discriminate].
  simpl. intros [= <-]. apply comprehension_ok_inv in C.
  set (kept := List.filter (fun n => match n with VNone => false | _ => true end) normalized).
  assert (K : List.Forall (fun y => is_mapping y = true /\ normalize_contact y = Ok y
                                    /\ y <> VNone) kept).
  { apply List.Forall_forall. intros y Hy. apply filter_In in Hy as [Hy Ny].
    destruct (Forall2_In_r _ _ _ _ C Hy) as (x & Hx & Hxy).
    apply filter_In in Hx as [_ Hx]. destruct x as [| | | | |dx]; try discriminate.
    destruct (normalize_contact_cases dx) as [[_ E] | (_ & r & E & S)];
      rewrite E in Hxy; injection Hxy as <-; [discriminate|].
    repeat split; [exact S | discriminate]. }
  rewrite (filter_all is_mapping kept)
    by (eapply List.Forall_impl; [|exact K]; now intros y (? & _)).
  rewrite (comprehension_fixed normalize_contact kept)
    by (eapply List.Forall_impl; [|exact K]; now intros y (_ & ? & _)).
  simpl. f_equal. apply filter_all.
  eapply List.Forall_impl; [|exact K]. intros y (_ & _ & N). now destruct y.
Qed.

Lemma adapt_contacts_result (d : dict) :
  adapt_contacts (VDict d)
  = (match dict_get d "contact" with
     | Some contact => VDict (dict_set d "contact" (contacts_after contact))
     | None => VDict d
     end, Ok tt).
Proof.
  unfold adapt_contacts, seq, get_, lift, setitem, try_pass, ret, contacts_after.
  cbn [py_get].
  destruct (dict_get d "contact") as [contact|] eqn:E; [|reflexivity].
  destruct (nonempty (as_list contact)).
  - destruct (normalize_contacts_total (as_list contact)) as [contacts' ->]. reflexivity.
  - now rewrite (dict_set_same _ _ _ E).
Qed.

Lemma contacts_after_twice (contact : value) :
  contacts_after (contacts_after contact) = contacts_after contact.
Proof.
  unfold contacts_after.
  destruct (nonempty (as_list contact)) eqn:N; [|now rewrite N].
  destruct (normalize_contacts_total (as_list contact)) as [contacts' H]. rewrite H.
  cbn [as_list]. rewrite (normalize_contacts_settles _ _ H).
  now destruct (nonempty contacts').
Qed.

Lemma adapt_contacts_settles : settles_on ["contact"] adapt_contacts.
Proof.
  apply (settles_on_key "contact" contacts_after);
    [apply adapt_contacts_result | apply contacts_after_twice].
Qed.

(** Splits a goal [frames k m], for a given key [k], along the structure
    of [m]. *)
Ltac frames_of_key :=
  repeat first
    [ apply frames_ret | apply frames_lift | apply frames_get_
    | apply frames_setitem; discriminate
    | apply frames_in_place; discriminate
    | apply frames_try_pass
    | apply frames_seq; [|intros ?]
    | progress cbv zeta
    | match goal with
      | |- frames _ (if ?b then _ else _) => destruct b
      | |- frames _ (match ?x with _ => _ end) => destruct x
      end ].

Lemma Forall2_settled {A : Type} (R : A -> A -> Prop) (xs ys zs : list A) :
  (forall x y z, R x y -> R y z -> z = y) ->
  Forall2 R xs ys -> Forall2 R ys zs -> zs = ys.
Proof.
  intros H F. revert zs. induction F as [|x y xs ys Hxy F IH]; intros zs G.
  - now inversion G.
  - inversion G as [|? z ? zs' Hyz G']; subst. f_equal; eauto.
Qed.

Lemma ensure_formatted_string_content_twice (x y z : value) :
  ensure_formatted_string_content x = Ok y ->
  ensure_formatted_string_content y = Ok z -> z = y.
Proof.
  destruct x as [| | | | |d]; try discriminate.
  destruct (dict_get d "content") as [c|] eqn:E.
  - destruct (truthy c) eqn:T.
    + rewrite (ensure_content_truthy d c E T). intros [= <-].
      rewrite (ensure_content_truthy d c E T). now intros [= <-].
    + now rewrite (ensure_content_falsy d c E T).
  - rewrite (ensure_content_absent d E). intros [= <-]. discriminate.
Qed.

Lemma ensure_forenames_settles : settles_on ["forename"] ensure_forenames.
Proof.
  intros d d1 d' o2 u u' H1 K H2. specialize (K _ (or_introl eq_refl)).
  unfold ensure_forenames, seq, get_, lift, setitem, ret in H1, H2.
  cbn [py_get] in H1, H2.
  destruct (dict_get d "forename") as [f|] eqn:G.
  - destruct (nonempty (as_list f)) eqn:N.
    + destruct (comprehension _ (as_list f)) as [ensured|e] eqn:C;
        inversion H1; subst d1; clear H1.
      rewrite dict_get_set_eq in K. rewrite K in H2. cbn [as_list] in H2.
      destruct (nonempty ensured); [|now inversion H2].
      destruct (comprehension _ ensured) as [again|e] eqn:C2; [|now inversion H2].
      apply comprehension_ok_inv in C, C2.
      rewrite (Forall2_settled _ _ _ _ ensure_formatted_string_content_twice C C2) in H2.
      rewrite (dict_set_same _ _ _ K) in H2. now inversion H2.
    + inversion H1; subst d1. rewrite G in K. rewrite K, N in H2. now inversion H2.
  - inversion H1; subst d1. rewrite G in K. rewrite K in H2. now inversion H2.
Qed.

Lemma ensure_initials_settles : settles_on ["formatted_initials"] ensure_initials.
Proof.
  intros d d1 d' o2 u u' H1 K H2. specialize (K _ (or_introl eq_refl)).
  unfold ensure_initials, seq, get_, lift, setitem, ret in H1, H2.
  cbn [py_get] in H1, H2.
  destruct (dict_get d "formatted_initials") as [fi|] eqn:G.
  - destruct (truthy fi) eqn:T.
    + destruct (ensure_formatted_string_content fi) as [e1|e] eqn:C;
        inversion H1; subst d1; clear H1.
      rewrite dict_get_set_eq in K. rewrite K in H2.
      destruct (truthy e1); [|now inversion H2].
      destruct (ensure_formatted_string_content e1) as [e2|e] eqn:C2;
        [|now inversion H2].
      rewrite (ensure_formatted_string_content_twice _ _ _ C C2) in H2.
      rewrite (dict_set_same _ _ _ K) in H2. now inversion H2.
    + inversion H1; subst d1. rewrite G in K. rewrite K, T in H2. now inversion H2.
  - inversion H1; subst d1. rewrite G in K. rewrite K in H2. now inversion H2.
Qed.

Lemma normalize_given_split (obj : value) :
  normalize_given obj = seq ensure_forenames (fun _ => ensure_initials) obj.
Proof.
  unfold ensure_forenames. rewrite seq_assoc. reflexivity.
Qed.

Lemma ensure_initials_frames_forename : frames "forename" ensure_initials.
Proof. unfold ensure_initials. frames_of_key. Qed.

Lemma ensure_forenames_frames : frames "" ensure_forenames.
Proof. unfold ensure_forenames. frames_of_key. Qed.

Lemma normalize_given_frames : frames "" normalize_given.
Proof. unfold normalize_given. frames_of_key. Qed.

Lemma normalize_given_settles :
  settles_on ["forename"; "formatted_initials"] normalize_given.
Proof.
  apply (settles_on_ext _ (seq ensure_forenames (fun _ => ensure_initials)));
    [intros obj; symmetry; apply normalize_given_split|].
  apply (settles_on_seq ["forename"] ["formatted_initials"] "").
  - apply ensure_forenames_settles.
  - apply ensure_initials_settles.
  - intros k [<-|[]]. apply ensure_initials_frames_forename.
  - apply ensure_forenames_frames.
Qed.

Lemma normalize_given_settled : settled_after_one_run normalize_given.
Proof.
  apply (settles_then_settled _ _ normalize_given_settles).
  intros obj o1 u H. destruct obj as [| | | | |d]; try discriminate H.
  destruct (frames_dict _ _ _ _ _ normalize_given_frames H) as [d1 ->]. eauto.
Qed.

Lemma adapt_given_name_settles : settles_on ["name"] adapt_given_name.
Proof.
  pose proof (settles_in_place "name" (VDict []) _
                (settled_in_place "given" VNone _ normalize_given_settled)) as S.
  intros d d1 d' o2 u u' H1 K H2. pose proof (K _ (or_introl eq_refl)) as Kn.
  unfold adapt_given_name, seq, get_, lift, ret in H1, H2. cbn [py_get] in H1, H2.
  destruct (py_get (match dict_get d "name" with Some v => v | None => VDict [] end)
              "given" VNone) as [gname|e] eqn:G; [|now inversion H1].
  destruct (truthy gname) eqn:T.
  - destruct (py_get (match dict_get d' "name" with Some v => v | None => VDict [] end)
                "given" VNone) as [gname'|e]; [|now inversion H2].
    destruct (truthy gname'); [|now inversion H2].
    exact (S d d1 d' o2 u u' H1 K H2).
  - inversion H1; subst d1. rewrite Kn, G, T in H2. now inversion H2.
Qed.

Lemma adapt_contacts_frames : frames "" adapt_contacts.
Proof. unfold adapt_contacts. frames_of_key. Qed.

Lemma adapt_given_name_frames_contact : frames "contact" adapt_given_name.
Proof. unfold adapt_given_name. frames_of_key. Qed.

Lemma adapt_given_name_frames : frames "" adapt_given_name.
Proof. unfold adapt_given_name. frames_of_key. Qed.

Lemma adapt_contacts_settled : settled_after_one_run adapt_contacts.
Proof.
  apply (settles_then_settled _ _ adapt_contacts_settles).
  intros obj o1 u H. destruct obj as [| | | | |d]; try discriminate H.
  destruct (frames_dict _ _ _ _ _ adapt_contacts_frames H) as [d1 ->]. eauto.
Qed.

Lemma contacts_then_name_settled :
  settled_after_one_run (seq adapt_contacts (fun _ => adapt_given_name)).
Proof.
  apply (settles_then_settled (["contact"] ++ ["name"])).
  - apply (settles_on_seq ["contact"] ["name"] "").
    + apply adapt_contacts_settles.
    + apply adapt_given_name_settles.
    + intros k [<-|[]]. apply adapt_given_name_frames_contact.
    + apply adapt_contacts_frames.
  - intros obj o1 u H. destruct obj as [| | | | |d]; try discriminate H.
    assert (F : frames "" (seq adapt_contacts (fun _ => adapt_given_name))).
    { apply frames_seq; [apply adapt_contacts_frames | intros _].
      apply adapt_given_name_frames. }
    destruct (frames_dict _ _ _ _ _ F H) as [d1 ->]. eauto.
Qed.

(** Two procedures run one after the other on the object held under one
    key are one procedure run on it. *)
Lemma in_place_fused {A B : Type} (k : string) (default : value)
    (m1 : proc A) (m2 : proc B) (d : dict) :
  dict_mem d k = true ->
  seq (in_place k default m1) (fun _ => in_place k default m2) (VDict d)
  = in_place k default (seq m1 (fun _ => m2)) (VDict d).
Proof.
  intros M. unfold seq, in_place.
  destruct (m1 (held k default (VDict d))) as [c1 [a|e]]; [|reflexivity].
  rewrite (held_store k default c1 d M).
  destruct (m2 c1) as [c2 r2]. f_equal.
  simpl. rewrite M. simpl. unfold dict_mem in *. rewrite dict_get_set_eq.
  f_equal. clear M. induction d as [|[k' v'] d IH]; simpl.
  - now rewrite String.eqb_refl.
  - destruct (String.eqb k' k) eqn:E; simpl; rewrite E; [reflexivity | now rewrite IH].
Qed.

Lemma mem_of_truthy_held (k : string) (d : dict) :
  truthy (held k VNone (VDict d)) = true -> dict_mem d k = true.
Proof.
  simpl. unfold dict_mem. now destruct (dict_get d k).
Qed.

Lemma truthy_same_keys (d : dict) (o : value) :
  same_keys (VDict d) o -> truthy (VDict d) = true -> truthy o = true.
Proof.
  intros S T. destruct (S d eq_refl) as (d' & -> & E).
  destruct d; [discriminate|]. now destruct d'.
Qed.

Lemma keeps_keys_in_place {A : Type} (k : string) (default : value) (m : proc A) :
  keeps_keys (in_place k default m).
Proof.
  intros obj. unfold in_place. destruct (m _). apply same_keys_store.
Qed.

Lemma keeps_keys_unchanged {A : Type} (m : proc A) :
  (forall obj, fst (m obj) = obj) -> keeps_keys m.
Proof. intros H obj. rewrite H. apply same_keys_refl. Qed.

Lemma adapt_contacts_keeps_keys : keeps_keys adapt_contacts.
Proof.
  intros [| | | | |d]; try (now intros ? [=]). rewrite adapt_contacts_result.
  destruct (dict_get d "contact") as [contact|] eqn:E; [|apply same_keys_refl].
  apply same_keys_set. unfold dict_mem. now rewrite E.
Qed.

Lemma adapt_given_name_keeps_keys : keeps_keys adapt_given_name.
Proof.
  unfold adapt_given_name.
  apply keeps_keys_seq; [now apply keeps_keys_unchanged | intros name].
  apply keeps_keys_seq; [now apply keeps_keys_unchanged | intros gname].
  destruct (truthy gname); [apply keeps_keys_in_place | now apply keeps_keys_unchanged].
Qed.

Lemma contacts_then_name_keeps_keys :
  keeps_keys (seq adapt_contacts (fun _ => adapt_given_name)).
Proof.
  apply keeps_keys_seq; [apply adapt_contacts_keeps_keys | intros _].
  apply adapt_given_name_keeps_keys.
Qed.

Lemma adapt_person_or_organization_cases (c : dict) :
  adapt_person_or_organization (VDict c)
  = if truthy (held "person" VNone (VDict c)) then
      in_place "person" VNone (seq adapt_contacts (fun _ => adapt_given_name)) (VDict c)
    else if truthy (held "organization" VNone (VDict c)) then
      in_place "organization" VNone adapt_contacts (VDict c)
    else (VDict c, Ok tt).
Proof.
  unfold adapt_person_or_organization.
  unfold seq at 1, get_ at 1. cbn [py_get]. unfold seq at 1, get_ at 1. cbn [py_get].
  change (match dict_get c "person" with Some v => v | None => VNone end)
    with (held "person" VNone (VDict c)).
  change (match dict_get c "organization" with Some v => v | None => VNone end)
    with (held "organization" VNone (VDict c)).
  destruct (truthy (held "person" VNone (VDict c))) eqn:Tp.
  - cbn [orb]. apply in_place_fused. now apply mem_of_truthy_held.
  - cbn [orb]. destruct (truthy (held "organization" VNone (VDict c))); [|reflexivity].
    unfold seq, ret. now destruct (in_place "organization" VNone adapt_contacts (VDict c))
      as [o [[]|e]].
Qed.

Lemma in_place_result {A : Type} (k : string) (default : value) (m : proc A)
    (d d1 : dict) (u : A) :
  dict_mem d k = true ->
  in_place k default m (VDict d) = (VDict d1, Ok u) ->
  exists child', m (held k default (VDict d)) = (child', Ok u)
                 /\ d1 = dict_set d k child' /\ dict_get d1 k = Some child'.
Proof.
  intros M. unfold in_place. destruct (m _) as [child' r]. simpl. rewrite M.
  intros [= <- ->]. exists child'. now rewrite dict_get_set_eq.
Qed.

Lemma adapt_person_or_organization_settles :
  settles_on ["person"; "organization"] adapt_person_or_organization.
Proof.
  pose proof (settles_in_place "person" VNone _ contacts_then_name_settled) as Sp.
  pose proof (settles_in_place "organization" VNone _ adapt_contacts_settled) as So.
  intros c c1 c' o2 u u' H1 K H2.
  assert (Kp : dict_get c' "person" = dict_get c1 "person") by (apply K; simpl; tauto).
  assert (Ko : dict_get c' "organization" = dict_get c1 "organization")
    by (apply K; simpl; tauto).
  rewrite adapt_person_or_organization_cases in H1, H2.
  destruct (truthy (held "person" VNone (VDict c))) eqn:Tp.
  - destruct (truthy (held "person" VNone (VDict c'))) eqn:Tp'.
    + apply (Sp c c1 c' o2 u u' H1); [|exact H2]. now intros k [<-|[]].
    + exfalso.
      pose proof (mem_of_truthy_held _ _ Tp) as M.
      destruct (in_place_result _ _ _ _ _ _ M H1) as (p2 & Hp & _ & G).
      simpl in Tp'. rewrite Kp, G in Tp'.
      simpl in Tp, Hp. destruct (dict_get c "person") as [p0|]; [|discriminate].
      destruct p0 as [| | | | |dp]; try discriminate Hp.
      pose proof (contacts_then_name_keeps_keys (VDict dp)) as S. rewrite Hp in S.
      cbn [fst] in S. rewrite (truthy_same_keys _ _ S Tp) in Tp'. discriminate.
  - assert (Hp : dict_get c1 "person" = dict_get c "person").
    { destruct (truthy (held "organization" VNone (VDict c))) eqn:To.
      - unfold in_place in H1. destruct (adapt_contacts _) as [o1 r1].
        injection H1 as H1 _. simpl in H1. destruct (dict_mem c "organization").
        + injection H1 as <-. now apply dict_get_set_ne.
        + now injection H1 as <-.
      - now injection H1 as <-. }
    assert (Tp' : truthy (held "person" VNone (VDict c')) = false).
    { simpl. rewrite Kp, Hp. exact Tp. }
    rewrite Tp' in H2.
    destruct (truthy (held "organization" VNone (VDict c))) eqn:To.
    + destruct (truthy (held "organization" VNone (VDict c'))).
      * apply (So c c1 c' o2 u u' H1); [|exact H2]. now intros k [<-|[]].
      * now injection H2 as <-.
    + injection H1 as <-.
      assert (To' : truthy (held "organization" VNone (VDict c')) = false).
      { simpl. rewrite Ko. exact To. }
      rewrite To' in H2. now injection H2 as <-.
Qed.

Lemma for_each_settled (body : proc unit) :
  settled_after_one_run body ->
  forall items items1 items2 (u u' : unit),
    for_each body items = (items1, Ok u) ->
    for_each body items1 = (items2, Ok u') ->
    items2 = items1.
Proof.
  intros I items. induction items as [|x rest IH]; intros items1 items2 u u'; simpl.
  - intros [= <-]. simpl. now intros [= <-].
  - destruct (body x) as [x1 [[]|e]] eqn:Ex; [|discriminate].
    destruct (for_each body rest) as [rest1 r1] eqn:Er. intros [= <- ->]. simpl.
    destruct (body x1) as [x2 [[]|e]] eqn:Ex1; [|discriminate].
    destruct (for_each body rest1) as [rest2 r2] eqn:Er1. intros [= <- ->].
    rewrite (I _ _ _ _ _ Ex Ex1). f_equal. exact (IH _ _ _ _ eq_refl Er1).
Qed.

Section SettlingOfTheSteps.

Variable py_str : value -> string.

Lemma step_keyword_settles : settles_on ["keyword"] (step_keyword py_str).
Proof.
  intros d d1 d' o2 u u' H1 K H2. specialize (K _ (or_introl eq_refl)).
  unfold step_keyword, seq, get_, lift, setitem, ret in H1, H2.
  cbn [py_get] in H1, H2.
  destruct (dict_get d "keyword") as [keywords|] eqn:G.
  - destruct (truthy keywords) eqn:T.
    + destruct (py_iter keywords) as [items|e]; [|now inversion H1].
      destruct (comprehension _ items) as [plain|e] eqn:C; inversion H1; subst d1; clear H1.
      rewrite dict_get_set_eq in K. rewrite K in H2.
      destruct (truthy (VList plain)); [|now inversion H2]. cbn [py_iter] in H2.
      assert (F : comprehension (to_plain_string py_str) plain = Ok plain).
      { apply comprehension_fixed. apply comprehension_ok_inv in C. clear -C.
        induction C as [|x y xs ys Hxy _ IH]; constructor; [|exact IH].
        apply to_plain_string_is_string in Hxy. now destruct y. }
      rewrite F in H2. rewrite (dict_set_same _ _ _ K) in H2. now inversion H2.
    + inversion H1; subst d1. rewrite G in K. rewrite K, T in H2. now inversion H2.
  - inversion H1; subst d1. rewrite G in K. rewrite K in H2.
    cbn [truthy] in H2. now inversion H2.
Qed.

Lemma normalize_role_of_role (d : dict) :
  names_type_or_description d = true -> normalize_role py_str (VDict d) = Ok (VDict d).
Proof.
  unfold names_type_or_description. simpl. now intros ->.
Qed.

Lemma normalize_roles_total (roles : list value) :
  exists roles', comprehension (normalize_role py_str) roles = Ok roles'
                 /\ comprehension (normalize_role py_str) roles' = Ok roles'.
Proof.
  destruct (comprehension_total (normalize_role py_str) roles) as (roles' & C & F).
  { intros x. destruct (normalize_role_returns_role py_str x) as (r & H & _). eauto. }
  exists roles'. split; [exact C|]. apply comprehension_fixed. clear C.
  induction F as [|x y xs ys Hxy _ IH]; constructor; [|exact IH].
  destruct (normalize_role_returns_role py_str x) as (r & H & dr & -> & N).
  rewrite H in Hxy. injection Hxy as <-. now apply normalize_role_of_role.
Qed.

Lemma normalize_roles_result (d : dict) :
  normalize_roles py_str (VDict d)
  = (match dict_get d "role" with
     | Some role => VDict (dict_set d "role" (roles_after py_str role))
     | None => VDict d
     end, Ok tt).
Proof.
  unfold normalize_roles, seq, get_, lift, setitem, ret, roles_after. cbn [py_get].
  destruct (dict_get d "role") as [role|] eqn:E; [|reflexivity].
  destruct (truthy role) eqn:T.
  - rewrite (nonempty_as_list_of_truthy role T).
    destruct (normalize_roles_total (as_list role)) as (roles' & -> & _). reflexivity.
  - cbn [as_list nonempty]. now rewrite (dict_set_same _ _ _ E).
Qed.

Lemma roles_after_twice (role : value) :
  roles_after py_str (roles_after py_str role) = roles_after py_str role.
Proof.
  unfold roles_after. destruct (truthy role) eqn:T; [|now rewrite T].
  destruct (normalize_roles_total (as_list role)) as (roles' & -> & F).
  cbn [as_list]. rewrite F. now destruct (truthy (VList roles')).
Qed.

Lemma normalize_roles_settles : settles_on ["role"] (normalize_roles py_str).
Proof.
  apply (settles_on_key "role" (roles_after py_str));
    [apply normalize_roles_result | apply roles_after_twice].
Qed.

Lemma seq_get {B : Type} (k : string) (default : value) (f : value -> proc B)
    (obj : value) :
  seq (get_ k default) f obj
  = match py_get obj k default with
    | Ok v => f v obj
    | Raise e => (obj, Raise e)
    end.
Proof. reflexivity. Qed.

Lemma normalize_contributor_split (obj : value) :
  normalize_contributor py_str obj
  = seq adapt_person_or_organization (fun _ => normalize_roles py_str) obj.
Proof.
  unfold adapt_person_or_organization, normalize_contributor.
  rewrite seq_assoc, !seq_get.
  destruct (py_get obj "person" VNone) as [person|e]; [|reflexivity].
  now rewrite seq_assoc.
Qed.

Lemma adapt_person_or_organization_frames : frames "" adapt_person_or_organization.
Proof. unfold adapt_person_or_organization. frames_of_key. Qed.

Lemma normalize_roles_frames (k : string) : k <> "role" -> frames k (normalize_roles py_str).
Proof. intros N. unfold normalize_roles. frames_auto. Qed.

Lemma normalize_contributor_settled : settled_after_one_run (normalize_contributor py_str).
Proof.
  apply (settles_then_settled (["person"; "organization"] ++ ["role"])).
  - apply (settles_on_ext _ (seq adapt_person_or_organization
                               (fun _ => normalize_roles py_str)));
      [intros obj; symmetry; apply normalize_contributor_split|].
    apply (settles_on_seq ["person"; "organization"] ["role"] "").
    + apply adapt_person_or_organization_settles.
    + apply normalize_roles_settles.
    + intros k [<-|[<-|[]]]; apply normalize_roles_frames; discriminate.
    + apply adapt_person_or_organization_frames.
  - intros obj o1 u H. destruct obj as [| | | | |d]; try discriminate H.
    rewrite normalize_contributor_split in H.
    assert (F : frames "" (seq adapt_person_or_organization
                             (fun _ => normalize_roles py_str))).
    { apply frames_seq; [apply adapt_person_or_organization_frames | intros _].
      apply normalize_roles_frames. discriminate. }
    destruct (frames_dict _ _ _ _ _ F H) as [d1 ->]. eauto.
Qed.

Lemma step_contributor_settles : settles_on ["contributor"] (step_contributor py_str).
Proof.
  intros d d1 d' o2 u u' H1 K H2. specialize (K _ (or_introl eq_refl)).
  unfold step_contributor, seq, get_, lift in H1, H2. cbn [py_get] in H1, H2.
  destruct (dict_get d "contributor") as [cs|] eqn:G.
  - destruct (py_iter cs) as [items|e] eqn:I; [|now inversion H1].
    destruct (for_each _ items) as [items1 r1] eqn:F1.
    cbn [store] in H1. unfold dict_mem in H1. rewrite G in H1.
    inversion H1; subst d1 r1; clear H1. rewrite dict_get_set_eq in K. rewrite K in H2.
    destruct (py_iter (store_items cs items1)) as [items'|e] eqn:I'; [|now inversion H2].
    destruct (for_each _ items') as [items2 r2] eqn:F2.
    cbn [store] in H2. unfold dict_mem in H2. rewrite K in H2.
    inversion H2; subst r2. f_equal. apply dict_set_same. rewrite K. f_equal.
    destruct cs; try reflexivity. simpl in I, I'. injection I as <-. injection I' as <-.
    simpl. f_equal.
    symmetry. exact (for_each_settled _ normalize_contributor_settled _ _ _ _ _ F1 F2).
  - cbn [py_iter] in H1. simpl in H1. unfold dict_mem in H1. rewrite G in H1.
    inversion H1; subst d1. rewrite G in K. rewrite K in H2.
    cbn [py_iter] in H2. simpl in H2. unfold dict_mem in H2. rewrite K in H2.
    now inversion H2.
Qed.

End SettlingOfTheSteps.

(** *** Dicts with distinct keys *)

Lemma dict_set_keys_new (d : dict) (k : string) (v : value) :
  dict_mem d k = false -> dict_set d k v = (d ++ [(k, v)])%list.
Proof.
  unfold dict_mem. induction d as [|[k' v'] d IH]; simpl; [reflexivity|].
  destruct (String.eqb k' k); [discriminate|]. intros H. now rewrite IH.
Qed.

Lemma mem_keys (d : dict) (k : string) :
  dict_mem d k = existsb (String.eqb k) (map fst d).
Proof.
  unfold dict_mem. induction d as [|[k' v'] d IH]; simpl; [reflexivity|].
  rewrite (String.eqb_sym k k'). destruct (String.eqb k' k); [reflexivity | exact IH].
Qed.

Lemma distinct_app_one (ks : list string) (k : string) :
  distinct ks = true -> existsb (String.eqb k) ks = false ->
  distinct (ks ++ [k]) = true.
Proof.
  induction ks as [|k' ks IH]; simpl; [reflexivity|].
  intros H N. apply andb_true_iff in H as [H1 H2]. apply orb_false_iff in N as [N1 N2].
  rewrite IH by assumption. rewrite existsb_app. simpl.
  apply negb_true_iff in H1. rewrite H1, (String.eqb_sym k' k), N1. reflexivity.
Qed.

Lemma dict_set_distinct (d : dict) (k : string) (v : value) :
  distinct (map fst d) = true -> distinct (map fst (dict_set d k v)) = true.
Proof.
  intros H. destruct (dict_mem d k) eqn:M.
  - now rewrite dict_set_keys.
  - rewrite (dict_set_keys_new _ _ _ M), map_app. simpl.
    apply distinct_app_one; [exact H | now rewrite <- mem_keys].
Qed.

Lemma dict_update_distinct (p s : dict) :
  distinct (map fst p) = true -> distinct (map fst (dict_update p s)) = true.
Proof.
  unfold dict_update. revert p. induction s as [|[k v] s IH]; intros p H; [exact H|].
  simpl. apply IH. now apply dict_set_distinct.
Qed.

Lemma dict_update_head (k : string) (w : value) (t s : dict) :
  exists w' t', dict_update ((k, w) :: t) s = (k, w') :: t'.
Proof.
  unfold dict_update. revert w t. induction s as [|[k1 v1] s IH]; intros w t; [eauto|].
  simpl. destruct (String.eqb k k1); apply IH.
Qed.

Lemma dict_update_get_other (p s : dict) (k : string) :
  existsb (String.eqb k) (map fst s) = false ->
  dict_get (dict_update p s) k = dict_get p k.
Proof.
  unfold dict_update. revert p. induction s as [|[k1 v1] s IH]; intros p; [reflexivity|].
  simpl. intros H. apply orb_false_iff in H as [H1 H2]. rewrite IH by exact H2.
  apply dict_get_set_ne. apply String.eqb_neq. now rewrite String.eqb_sym.
Qed.

Lemma dict_update_get (p s : dict) (k : string) (v : value) :
  distinct (map fst s) = true -> dict_get s k = Some v ->
  dict_get (dict_update p s) k = Some v.
Proof.
  revert p. induction s as [|[k1 v1] s IH]; intros p; [discriminate|].
  simpl. intros D. apply andb_true_iff in D as [D1 D2]. apply negb_true_iff in D1.
  destruct (String.eqb k1 k) eqn:E.
  - intros [= ->]. apply String.eqb_eq in E. subst k1.
    change (dict_update p ((k, v) :: s)) with (dict_update (dict_set p k v) s).
    rewrite dict_update_get_other by exact D1. apply dict_get_set_eq.
  - intros H. change (dict_update p ((k1, v1) :: s)) with (dict_update (dict_set p k1 v1) s).
    now apply IH.
Qed.

Lemma dict_update_appends (p s : dict) :
  distinct (map fst (p ++ s)) = true -> dict_update p s = (p ++ s)%list.
Proof.
  revert p. induction s as [|[k v] s IH]; intros p D.
  - now rewrite app_nil_r.
  - change (dict_update p ((k, v) :: s)) with (dict_update (dict_set p k v) s).
    assert (M : dict_mem p k = false).
    { rewrite mem_keys. rewrite map_app in D. simpl in D.
      clear IH. induction (map fst p) as [|k' ks IHk]; [reflexivity|].
      simpl in *. apply andb_true_iff in D as [D1 D2]. apply negb_true_iff in D1.
      rewrite existsb_app in D1. simpl in D1.
      apply orb_false_iff in D1 as [_ D1]. apply orb_false_iff in D1 as [D1 _].
      rewrite (String.eqb_sym k k'), D1. now apply IHk. }
    rewrite (dict_set_keys_new _ _ _ M), IH; rewrite <- app_assoc; [reflexivity | exact D].
Qed.

(** The entry that the relation step builds from a relation with distinct
    keys holds the bibitem under "bibitem" and is rebuilt as itself. *)
Lemma rebuilt_entry_settles (entries : dict) (bibitem : value) :
  distinct (map fst entries) = true -> dict_get entries "bibitem" = Some bibitem ->
  let entry := dict_update [("bibitem", bibitem)] entries in
  dict_get entry "bibitem" = Some bibitem
  /\ dict_update [("bibitem", bibitem)] entry = entry.
Proof.
  intros D G entry.
  assert (Gd : dict_get entry "bibitem" = Some bibitem) by now apply dict_update_get.
  split; [exact Gd|].
  assert (De : distinct (map fst entry) = true) by now apply dict_update_distinct.
  destruct (dict_update_head "bibitem" bibitem [] entries) as (w & t & E).
  fold entry in E. rewrite E in *. simpl in Gd. injection Gd as ->.
  change (dict_update [("bibitem", bibitem)] (("bibitem", bibitem) :: t))
    with (dict_update [("bibitem", bibitem)] t).
  now apply dict_update_appends.
Qed.

Lemma well_formed_get (d : dict) (k : string) (v : value) :
  well_formed (VDict d) = true -> dict_get d k = Some v -> well_formed v = true.
Proof.
  simpl. intros H. apply andb_true_iff in H as [_ H]. revert H.
  induction d as [|[k' v'] d IH]; simpl; [discriminate|].
  intros H. apply andb_true_iff in H as [H1 H2].
  destruct (String.eqb k' k); [now intros [= <-] | now apply IH].
Qed.

Lemma well_formed_in (l : list value) (x : value) :
  well_formed (VList l) = true -> In x l -> well_formed x = true.
Proof.
  simpl. intros H Hx. rewrite forallb_forall in H. now apply H.
Qed.

Lemma well_formed_distinct (d : dict) :
  well_formed (VDict d) = true -> distinct (map fst d) = true.
Proof. simpl. intros H. now apply andb_true_iff in H as [H _]. Qed.

Section SettlingOfNormalizeRelaxed.

Variable py_str : value -> string.

Lemma before_relations_settles :
  settles_on ["version"; "edition"; "keyword"; "contributor"] (before_relations py_str).
Proof.
  unfold before_relations.
  apply (settles_on_seq ["version"] ["edition"; "keyword"; "contributor"] "").
  - apply step_version_settles.
  - apply (settles_on_seq ["edition"] ["keyword"; "contributor"] "").
    + apply step_edition_settles.
    + apply (settles_on_seq ["keyword"] ["contributor"] "").
      * apply step_keyword_settles.
      * apply step_contributor_settles.
      * intros k [<-|[]]. apply step_contributor_frames. discriminate.
      * apply step_keyword_frames. discriminate.
    + intros k [<-|[]]. apply frames_seq; [|intros _].
      * apply step_keyword_frames. discriminate.
      * apply step_contributor_frames. discriminate.
    + apply step_edition_frames. discriminate.
  - intros k [<-|[]]. apply frames_seq; [|intros _].
    + apply step_edition_frames. discriminate.
    + apply frames_seq; [|intros _].
      * apply step_keyword_frames. discriminate.
      * apply step_contributor_frames. discriminate.
  - apply step_version_frames. discriminate.
Qed.

Local Abbreviation settled_at := (settled_twice py_str).

Lemma normalize_relaxed_keeps_truthy (d : dict) (o : value) (r : outcome value) :
  normalize_relaxed py_str (VDict d) = (o, r) ->
  truthy (VDict d) = true -> truthy o = true.
Proof.
  intros H. apply truthy_same_keys.
  pose proof (normalize_relaxed_body_keeps_keys py_str (normalize_relaxed py_str) (VDict d))
    as S.
  rewrite <- normalize_relaxed_unfold, H in S. exact S.
Qed.

Lemma relation_comprehension_settles (rs : list value) :
  (forall rd b, In (VDict rd) rs -> dict_get rd "bibitem" = Some b ->
                distinct (map fst rd) = true /\ settled_at b) ->
  forall rs' out out' out2,
    relation_comprehension (normalize_relaxed py_str) rs = (rs', Ok out) ->
    relation_comprehension (normalize_relaxed py_str) out = (out', Ok out2) ->
    out2 = out.
Proof.
  induction rs as [|r rest IH]; intros Hrs rs' out out' out2 H1 H2; simpl in H1.
  - injection H1 as _ <-. simpl in H2. now injection H2 as _ <-.
  - assert (Hrest : forall rd b, In (VDict rd) rest -> dict_get rd "bibitem" = Some b ->
                                 distinct (map fst rd) = true /\ settled_at b)
      by (intros rd b Hin; apply Hrs; now right).
    destruct r as [| | | | |rd]; try discriminate H1. cbn [py_get] in H1.
    destruct (dict_get rd "bibitem") as [b|] eqn:Gb.
    + destruct (Hrs rd b (or_introl eq_refl) Gb) as [D Sb].
      destruct (truthy b) eqn:Tb.
      * destruct (normalize_relaxed py_str b) as [b1 [ret|e]] eqn:N1;
          cbn [store] in H1; unfold dict_mem in H1; rewrite Gb in H1; [|discriminate H1].
        apply normalize_relaxed_returns_its_argument in N1 as E1. subst ret.
        destruct (relation_comprehension _ rest) as [rest' [out_rest|e]] eqn:R1;
          [|discriminate H1].
        injection H1 as _ <-.
        destruct (rebuilt_entry_settles (dict_set rd "bibitem" b1) b1) as [Ge Ue].
        { now apply dict_set_distinct. }
        { apply dict_get_set_eq. }
        simpl in H2. rewrite Ge in H2.
        assert (Tb1 : truthy b1 = true).
        { destruct b as [| | | | |db]; try discriminate N1.
          exact (normalize_relaxed_keeps_truthy _ _ _ N1 Tb). }
        rewrite Tb1 in H2.
        destruct (normalize_relaxed py_str b1) as [b2 [ret2|e]] eqn:N2;
          unfold dict_mem in H2; rewrite Ge in H2; [|discriminate H2].
        apply normalize_relaxed_returns_its_argument in N2 as E2. subst ret2.
        pose proof (Sb _ _ _ _ N1 N2) as ->.
        rewrite (dict_set_same _ _ _ Ge), Ue in H2.
        destruct (relation_comprehension _ out_rest) as [out_rest' [out2_rest|e]] eqn:R2;
          [|discriminate H2].
        injection H2 as _ <-. f_equal.
        exact (IH Hrest _ _ _ _ eq_refl R2).
      * destruct (relation_comprehension _ rest) as [rest' res] eqn:R1.
        injection H1 as _ ->. exact (IH Hrest _ _ _ _ eq_refl H2).
    + cbn [truthy] in H1. destruct (relation_comprehension _ rest) as [rest' res] eqn:R1.
      injection H1 as _ ->. exact (IH Hrest _ _ _ _ eq_refl H2).
Qed.

Lemma step_relation_settles_here (d d1 d' : dict) (o2 : value) (u u' : unit) :
  (forall l rd b, dict_get d "relation" = Some (VList l) -> In (VDict rd) l ->
                  dict_get rd "bibitem" = Some b ->
                  distinct (map fst rd) = true /\ settled_at b) ->
  step_relation (normalize_relaxed py_str) (VDict d) = (VDict d1, Ok u) ->
  dict_get d' "relation" = dict_get d1 "relation" ->
  step_relation (normalize_relaxed py_str) (VDict d') = (o2, Ok u') ->
  o2 = VDict d'.
Proof.
  intros Hd H1 K H2.
  unfold step_relation, seq, get_, lift, setitem, ret in H1, H2. cbn [py_get] in H1, H2.
  destruct (dict_get d "relation") as [rel|] eqn:G.
  - destruct (truthy rel) eqn:T.
    + destruct (py_iter rel) as [items|e] eqn:I; [|now inversion H1].
      destruct (relation_comprehension _ items) as [items' [out|e]] eqn:R1;
        [|now inversion H1].
      inversion H1; subst d1; clear H1. rewrite dict_get_set_eq in K. rewrite K in H2.
      destruct (truthy (VList out)); [|now inversion H2]. cbn [py_iter] in H2.
      destruct (relation_comprehension _ out) as [out' [out2|e]] eqn:R2;
        [|now inversion H2].
      assert (out2 = out) as ->.
      { apply (relation_comprehension_settles items) with (3 := R2) (2 := R1).
        intros rd b Hin Gb.
        destruct rel as [| | |s|l|dk]; simpl in I; try discriminate; injection I as <-.
        - apply chars_are_strings in Hin as [c [=]].
        - exact (Hd l rd b eq_refl Hin Gb).
        - apply keys_are_strings in Hin as [c [=]]. }
      rewrite (dict_set_same _ _ _ K) in H2. now inversion H2.
    + inversion H1; subst d1. rewrite G in K. rewrite K, T in H2. now inversion H2.
  - cbn [truthy] in H1. inversion H1; subst d1. rewrite G in K. rewrite K in H2.
    cbn [truthy] in H2. now inversion H2.
Qed.

(** X19: for a record whose dicts have distinct keys (as every Python dict
    has), if [normalize_relaxed] returns and a second call on its result
    returns too, the second call changes nothing: it returns the very tree
    the first call left. *)
Theorem normalize_relaxed_twice_is_once (data once twice returned returned' : value) :
  well_formed data = true ->
  normalize_relaxed py_str data = (once, Ok returned) ->
  normalize_relaxed py_str once = (twice, Ok returned') ->
  twice = once /\ returned' = returned.
Proof.
  intros W H1 H2.
  enough (E : twice = once).
  { split; [exact E|]. apply normalize_relaxed_returns_its_argument in H1, H2. congruence. }
  revert once twice returned returned' W H1 H2.
  remember (depth data) as n eqn:En. revert data En.
  induction n as [n IH] using lt_wf_ind. intros data -> once twice returned returned' W H1 H2.
  rewrite normalize_relaxed_unfold, normalize_relaxed_body_split in H1.
  apply seq_ok in H1 as ([] & o4 & Hbefore & H1).
  apply seq_ok in H1 as ([] & o5 & Hstep & H1). injection H1 as <- _.
  destruct (before_relations_needs_dict _ _ _ _ Hbefore) as [d ->].
  assert (Fb : frames "relation" (before_relations py_str))
    by (apply before_relations_frames; discriminate).
  destruct (Fb (VDict d) d eq_refl) as (d4 & E4 & Grel). rewrite Hbefore in E4.
  cbn [fst] in E4. subst o4.
  assert (Fs : frames "" (step_relation (normalize_relaxed py_str)))
    by (apply step_relation_frames; discriminate).
  destruct (frames_dict _ _ _ _ _ Fs Hstep) as [d5 ->].
  rewrite normalize_relaxed_unfold, normalize_relaxed_body_split in H2.
  apply seq_ok in H2 as ([] & p4 & Hbefore' & H2).
  apply seq_ok in H2 as ([] & p5 & Hstep' & H2). injection H2 as <- _.
  assert (p4 = VDict d5) as ->.
  { apply (before_relations_settles d d4 d5 p4 tt tt Hbefore); [|exact Hbefore'].
    intros k Hk.
    assert (Fk : frames k (step_relation (normalize_relaxed py_str))).
    { apply step_relation_frames. intros ->. simpl in Hk.
      destruct Hk as [H|[H|[H|[H|[]]]]]; discriminate H. }
    destruct (Fk (VDict d4) d4 eq_refl) as (dx & Ex & Gx). rewrite Hstep in Ex.
    injection Ex as <-. exact Gx. }
  apply (step_relation_settles_here d4 d5 d5 p5 tt tt); [|exact Hstep|reflexivity|exact Hstep'].
  intros l rd b Gl Hin Gb. rewrite Grel in Gl.
  assert (Wl : well_formed (VList l) = true) by exact (well_formed_get _ _ _ W Gl).
  assert (Wr : well_formed (VDict rd) = true) by exact (well_formed_in _ _ Wl Hin).
  split; [now apply well_formed_distinct|].
  intros b1 x b2 y N1 N2.
  apply (IH (depth b)) with (data := b) (returned := x) (returned' := y); auto.
  - pose proof (depth_dict_get _ _ _ Gl). pose proof (depth_in_list _ _ Hin).
    pose proof (depth_dict_get _ _ _ Gb). lia.
  - exact (well_formed_get _ _ _ Wr Gb).
Qed.

End SettlingOfNormalizeRelaxed.

Lemma normalize_relaxed_twice_is_once_witness :
  snd (normalize_relaxed str_of_example
         (fst (normalize_relaxed str_of_example record_with_all_fields)))
  = Ok (fst (normalize_relaxed str_of_example record_with_all_fields))
  /\ fst (normalize_relaxed str_of_example
            (fst (normalize_relaxed str_of_example record_with_all_fields)))
     = fst (normalize_relaxed str_of_example record_with_all_fields).
Proof.
  destruct (normalize_relaxed_twice_is_once str_of_example record_with_all_fields
              (fst (normalize_relaxed str_of_example record_with_all_fields))
              (fst (normalize_relaxed str_of_example
                      (fst (normalize_relaxed str_of_example record_with_all_fields))))
              (fst (normalize_relaxed str_of_example record_with_all_fields))
              (fst (normalize_relaxed str_of_example
                      (fst (normalize_relaxed str_of_example record_with_all_fields)))))
    as [E _].
  - vm_compute. reflexivity.
  - vm_compute. reflexivity.
  - vm_compute. reflexivity.
  - split; [vm_compute; reflexivity | exact E].
Defined.

(** ** The relations that are kept *)

Section KeptRelations.

Variable py_str : value -> string.

Lemma relation_after_return (d : dict) (rs : list value) (data' returned : value) :
  dict_get d "relation" = Some (VList rs) ->
  normalize_relaxed py_str (VDict d) = (data', Ok returned) ->
  py_get returned "relation" VNone
  = Ok (VList (map (rebuilt_relation py_str) (List.filter has_truthy_bibitem rs))).
Proof.
  intros Hrel H.
  rewrite normalize_relaxed_unfold, normalize_relaxed_body_split in H.
  apply seq_ok in H as ([] & o & Hbefore & H).
  apply seq_ok in H as ([] & o' & Hstep & H). injection H as _ <-.
  assert (F : frames "relation" (before_relations py_str))
    by (apply before_relations_frames; discriminate).
  destruct (F (VDict d) d eq_refl) as (d4 & E4 & Eq). rewrite Hbefore in E4.
  cbn [fst] in E4. subst o. rewrite Hrel in Eq.
  unfold step_relation, seq, get_, lift in Hstep. cbn [py_get] in Hstep.
  rewrite Eq in Hstep. destruct rs as [|r rest].
  - simpl in Hstep. injection Hstep as <-. simpl. now rewrite Eq.
  - cbn [truthy py_iter] in Hstep.
    destruct (relation_comprehension _ (r :: rest)) as [items' [out|e]] eqn:Ec;
      [|discriminate Hstep].
    simpl in Hstep. injection Hstep as <-. simpl. rewrite dict_get_set_eq.
    now rewrite (relation_comprehension_ok _ _ _ _ Ec).
Qed.

Lemma rebuilt_relation_entry (rd : dict) (b : value) :
  distinct (map fst rd) = true -> dict_get rd "bibitem" = Some b ->
  exists e,
    rebuilt_relation py_str (VDict rd) = VDict e
    /\ dict_get e "bibitem" = Some (fst (normalize_relaxed py_str b))
    /\ forall k, k <> "bibitem" -> dict_get e k = dict_get rd k.
Proof.
  intros D G. simpl. rewrite G. eexists. split; [reflexivity|].
  set (b' := fst (normalize_relaxed py_str b)).
  assert (D' : distinct (map fst (dict_set rd "bibitem" b')) = true)
    by now apply dict_set_distinct.
  split.
  - apply dict_update_get; [exact D' | apply dict_get_set_eq].
  - intros k N.
    assert (Gk : dict_get (dict_set rd "bibitem" b') k = dict_get rd k)
      by (apply dict_get_set_ne; congruence).
    destruct (dict_get rd k) as [v|] eqn:E.
    + now apply dict_update_get.
    + rewrite dict_update_get_other.
      * cbn [dict_get fst snd]. apply String.eqb_neq in N.
        rewrite String.eqb_sym. now rewrite N.
      * rewrite <- mem_keys. unfold dict_mem. now rewrite Gk.
Qed.

(** X20: when [normalize_relaxed] returns on a record with distinct keys,
    every relation in the result comes from a relation of the input that
    held a truthy bibitem, in the same order: it holds the normalized
    bibitem under "bibitem" and, under every other key, what the input
    relation held. *)
Theorem kept_relations_keep_their_other_keys
    (d : dict) (rs : list value) (data' returned : value) :
  well_formed (VDict d) = true ->
  dict_get d "relation" = Some (VList rs) ->
  normalize_relaxed py_str (VDict d) = (data', Ok returned) ->
  exists out,
    py_get returned "relation" VNone = Ok (VList out)
    /\ Forall2
         (fun r entry =>
            exists rd b e,
              r = VDict rd /\ dict_get rd "bibitem" = Some b /\ truthy b = true
              /\ entry = VDict e
              /\ dict_get e "bibitem" = Some (fst (normalize_relaxed py_str b))
              /\ forall k, k <> "bibitem" -> dict_get e k = dict_get rd k)
         (List.filter has_truthy_bibitem rs) out.
Proof.
  intros W Hrel H. eexists. split; [exact (relation_after_return _ _ _ _ Hrel H)|].
  assert (Wl : well_formed (VList rs) = true) by exact (well_formed_get _ _ _ W Hrel).
  clear Hrel H. induction rs as [|r rest IH]; [constructor|].
  assert (Wrest : well_formed (VList rest) = true).
  { simpl in *. now apply andb_true_iff in Wl as [_ ?]. }
  assert (Wr : well_formed r = true) by (apply (well_formed_in _ _ Wl); now left).
  cbn [List.filter]. destruct (has_truthy_bibitem r) eqn:T; [|now apply IH].
  cbn [map]. constructor; [|now apply IH].
  destruct r as [| | | | |rd]; try discriminate T. simpl in T.
  destruct (dict_get rd "bibitem") as [b|] eqn:G; [|discriminate T].
  destruct (rebuilt_relation_entry rd b (well_formed_distinct _ Wr) G) as (e & E & Ge & Gk).
  exists rd, b, e. auto 10.
Qed.

End KeptRelations.

Lemma kept_relations_keep_their_other_keys_witness :
  exists out,
    py_get (fst (normalize_relaxed str_of_example record_with_all_fields)) "relation" VNone
    = Ok (VList out)
    /\ Forall2
         (fun r entry =>
            exists rd b e,
              r = VDict rd /\ dict_get rd "bibitem" = Some b /\ truthy b = true
              /\ entry = VDict e
              /\ dict_get e "bibitem" = Some (fst (normalize_relaxed str_of_example b))
              /\ forall k, k <> "bibitem" -> dict_get e k = dict_get rd k)
         (List.filter has_truthy_bibitem
            [VDict [("type", VStr "includes");
                    ("bibitem",
                     VDict [("edition", VStr "1");
                            ("relation",
                             VList [VDict [("bibitem", VDict [("keyword", VStr "ab")])]])])];
             VDict [("type", VStr "updates")]])
         out.
Proof.
  refine (kept_relations_keep_their_other_keys str_of_example
            match record_with_all_fields with VDict d => d | _ => [] end
            _ (fst (normalize_relaxed str_of_example record_with_all_fields))
            (fst (normalize_relaxed str_of_example record_with_all_fields)) _ _ _).
  - vm_compute. reflexivity.
  - reflexivity.
  - vm_compute. reflexivity.
Defined.

(** ** The query of a citation search ([main/util.py]) *)

Section SearchViewProperties.

Variable lower : string -> string.
Variable unquote_plus : string -> string.
Variable strip : string -> string.
Variable json_loads : string -> option value.
Variable response : Type.
Variable HttpResponseBadRequest : string -> response.
Variable super_get : SearchView.view -> SearchView.view * SearchView.result response.
Variable QuerySet : Type.
Variable handle_json_repr_query : SearchView.parsed_query -> QuerySet.
Variable handle_json_struct_query : SearchView.parsed_query -> QuerySet.

Local Abbreviation request_query := (SearchView.request_query unquote_plus strip).
Local Abbreviation dispatch_parse_query :=
  (SearchView.dispatch_parse_query lower unquote_plus strip json_loads).
Local Abbreviation get :=
  (SearchView.get lower unquote_plus strip json_loads response HttpResponseBadRequest super_get).
Local Abbreviation dispatch_handle_query :=
  (SearchView.dispatch_handle_query QuerySet handle_json_repr_query handle_json_struct_query).

(** The parser that lines 160-166 select is the default one exactly when
    the lowered format is not a supported one. *)
Lemma selected_parser (format : string) :
  (if existsb (String.eqb (lower format)) SearchView.supported_query_formats
   then SearchView.parser_named json_loads (lower format)
   else SearchView.Binary SearchView.parse_unsupported_query)
  = if String.eqb (lower format) "json_repr"
    then SearchView.Unary SearchView.parse_json_repr_query
    else if String.eqb (lower format) "json_struct"
    then SearchView.Unary (SearchView.parse_json_struct_query json_loads)
    else SearchView.Binary SearchView.parse_unsupported_query.
Proof.
  unfold SearchView.supported_query_formats, SearchView.parser_named.
  cbn [existsb].
  destruct (String.eqb (lower format) "json_repr") eqn:R;
    destruct (String.eqb (lower format) "json_struct") eqn:S; reflexivity.
Qed.

(** How a call of [dispatch_parse_query] ends, by the query and the
    format of the request. *)
Lemma dispatch_parse_query_cases (self : SearchView.view) (req : SearchView.request)
    (kwargs : string -> option string) :
  dispatch_parse_query self req kwargs =
  match request_query self req kwargs with
  | Some (String c rest) =>
      if String.eqb (lower (format_sent req)) "json_repr"
      then (SearchView.mk_view (SearchView.query_in_path self)
              (Some (SearchView.Repr (String c rest))) (Some (format_sent req)),
            SearchView.Returns tt)
      else if String.eqb (lower (format_sent req)) "json_struct"
      then match json_loads (String c rest) with
           | Some struct =>
               (SearchView.mk_view (SearchView.query_in_path self)
                  (Some (SearchView.Struct struct)) (Some (format_sent req)),
                SearchView.Returns tt)
           | None => (self, SearchView.Raises SearchView.ValueError)
           end
      else (self, SearchView.Raises SearchView.TypeError)
  | _ => (SearchView.mk_view (SearchView.query_in_path self) None None,
          SearchView.Returns tt)
  end.
Proof.
  unfold SearchView.dispatch_parse_query, format_sent.
  destruct (request_query self req kwargs) as [[|c rest]|]; try reflexivity.
  rewrite selected_parser.
  destruct (String.eqb (lower _) "json_repr"); [reflexivity|].
  destruct (String.eqb (lower _) "json_struct"); [|reflexivity].
  cbn. unfold SearchView.parse_json_struct_query.
  destruct (json_loads (String c rest)); reflexivity.
Qed.



(** X23.  A request with a query and a format that, lowered, is not a
    supported one: the parser is [parse_unsupported_query], which takes
    two arguments and is called with one, so [get] raises [TypeError]
    and does not answer with a 400 response. *)
Theorem get_unsupported_format_raises_TypeError
    (self : SearchView.view) (req : SearchView.request)
    (kwargs : string -> option string) (c : ascii) (rest : string) :
  request_query self req kwargs = Some (String c rest) ->
  ~ In (lower (format_sent req)) SearchView.supported_query_formats ->
  get self req kwargs = (self, SearchView.Raises SearchView.TypeError).
Proof.
  intros Q N. unfold SearchView.get.
  rewrite dispatch_parse_query_cases, Q.
  destruct (String.eqb (lower _) "json_repr") eqn:R.
  { apply String.eqb_eq in R. exfalso. apply N. rewrite R. cbn. auto. }
  destruct (String.eqb (lower _) "json_struct") eqn:S.
  { apply String.eqb_eq in S. exfalso. apply N. rewrite S. cbn. auto. }
  reflexivity.
Qed.

(** X24.  A [json_struct] query that [json.loads] rejects: [get] answers
    with the 400 response [Unable to parse query], without calling the
    parent class, and the view keeps the attributes it had. *)
Theorem get_unparsable_json_struct
    (self : SearchView.view) (req : SearchView.request)
    (kwargs : string -> option string) (c : ascii) (rest : string) :
  request_query self req kwargs = Some (String c rest) ->
  lower (format_sent req) = "json_struct"%string ->
  json_loads (String c rest) = None ->
  get self req kwargs
  = (self, SearchView.Returns (HttpResponseBadRequest "Unable to parse query")).
Proof.
  intros Q F J. unfold SearchView.get.
  rewrite dispatch_parse_query_cases, Q, F, J. reflexivity.
Qed.

(** X25.  The format is tested lowered but stored as sent: once
    [dispatch_parse_query] has stored a query, [dispatch_handle_query]
    finds a handler exactly when the request named no format, or
    [json_repr] or [json_struct] in these very letters; for any other
    spelling it raises [AttributeError]. *)
Theorem handler_found_iff_format_spelled_exactly
    (self self' : SearchView.view) (req : SearchView.request)
    (kwargs : string -> option string) (parsed : SearchView.parsed_query) :
  dispatch_parse_query self req kwargs = (self', SearchView.Returns tt) ->
  SearchView.query self' = Some parsed ->
  ((exists qs, dispatch_handle_query self' parsed = SearchView.Returns qs) <->
   In (format_sent req) SearchView.supported_query_formats) /\
  (~ In (format_sent req) SearchView.supported_query_formats ->
   dispatch_handle_query self' parsed = SearchView.Raises SearchView.AttributeError).
Proof.
  intros D P.
  assert (F : SearchView.query_format self' = Some (format_sent req)).
  { revert D. rewrite dispatch_parse_query_cases.
    destruct (request_query self req kwargs) as [[|c rest]|].
    - intros [= <-]. discriminate P.
    - destruct (String.eqb (lower _) "json_repr"); [intros [= <-]; reflexivity|].
      destruct (String.eqb (lower _) "json_struct"); [|discriminate].
      destruct (json_loads _); [|discriminate]. intros [= <-]. reflexivity.
    - intros [= <-]. discriminate P. }
  unfold SearchView.dispatch_handle_query, SearchView.supported_query_formats.
  rewrite F. cbn [In].
  destruct (String.eqb (format_sent req) "json_repr") eqn:R.
  { apply String.eqb_eq in R. split; [|intros N; exfalso; apply N; auto].
    split; [auto|]. intros _. eexists. reflexivity. }
  destruct (String.eqb (format_sent req) "json_struct") eqn:S.
  { apply String.eqb_eq in S. split; [|intros N; exfalso; apply N; auto].
    split; [auto|]. intros _. eexists. reflexivity. }
  apply String.eqb_neq in R, S.
  split; [|reflexivity].
  split.
  - intros [qs [=]].
  - intros [E|[E|[]]]; congruence.
Qed.

(** X26.  A request with a query and no format, or the format
    [json_repr]: the query is stored as it came (unquoted and stripped
    when it is in the path), and [dispatch_handle_query] hands it to
    [handle_json_repr_query]. *)
Theorem json_repr_query_reaches_its_handler
    (self : SearchView.view) (req : SearchView.request)
    (kwargs : string -> option string) (c : ascii) (rest : string) :
  lower "json_repr" = "json_repr"%string ->
  request_query self req kwargs = Some (String c rest) ->
  format_sent req = "json_repr"%string ->
  exists self',
    dispatch_parse_query self req kwargs = (self', SearchView.Returns tt) /\
    SearchView.query self' = Some (SearchView.Repr (String c rest)) /\
    dispatch_handle_query self' (SearchView.Repr (String c rest))
    = SearchView.Returns (handle_json_repr_query (SearchView.Repr (String c rest))).
Proof.
  intros L Q F. eexists. rewrite dispatch_parse_query_cases, Q, F, L.
  cbn. split; [reflexivity|]. split; [reflexivity|].
  unfold SearchView.dispatch_handle_query. cbn. reflexivity.
Qed.

End SearchViewProperties.



Lemma get_unsupported_format_raises_TypeError_witness :
  SearchView.get SearchView.lower_ascii (fun s => s) (fun s => s) json_loads_example
    string (fun body => body) super_get_example
    fresh_view (request_of (Some "RFC 2119"%string) (Some "xml"%string)) no_kwargs
  = (fresh_view, SearchView.Raises SearchView.TypeError).
Proof.
  apply (get_unsupported_format_raises_TypeError SearchView.lower_ascii
           (fun s => s) (fun s => s) json_loads_example
           string (fun body => body) super_get_example
           fresh_view (request_of (Some "RFC 2119"%string) (Some "xml"%string)) no_kwargs
           "R"%char "FC 2119"%string).
  - vm_compute. reflexivity.
  - vm_compute. intros [H|[H|[]]]; discriminate H.
Defined.

Lemma get_unparsable_json_struct_witness :
  SearchView.get SearchView.lower_ascii (fun s => s) (fun s => s) json_loads_example
    string (fun body => body) super_get_example
    fresh_view (request_of (Some "{"%string) (Some "JSON_Struct"%string)) no_kwargs
  = (fresh_view, SearchView.Returns "Unable to parse query"%string).
Proof.
  apply (get_unparsable_json_struct SearchView.lower_ascii
           (fun s => s) (fun s => s) json_loads_example
           string (fun body => body) super_get_example
           fresh_view (request_of (Some "{"%string) (Some "JSON_Struct"%string)) no_kwargs
           "{"%char ""%string).
  - vm_compute. reflexivity.
  - vm_compute. reflexivity.
  - vm_compute. reflexivity.
Defined.

Lemma handler_found_iff_format_spelled_exactly_witness :
  ((exists qs,
      SearchView.dispatch_handle_query SearchView.parsed_query (fun q => q) (fun q => q)
        (SearchView.mk_view false (Some (SearchView.Repr "RFC 2119")) (Some "JSON_REPR"%string))
        (SearchView.Repr "RFC 2119")
      = SearchView.Returns qs) <->
   In (format_sent (request_of (Some "RFC 2119"%string) (Some "JSON_REPR"%string)))
      SearchView.supported_query_formats) /\
  (~ In (format_sent (request_of (Some "RFC 2119"%string) (Some "JSON_REPR"%string)))
        SearchView.supported_query_formats ->
   SearchView.dispatch_handle_query SearchView.parsed_query (fun q => q) (fun q => q)
     (SearchView.mk_view false (Some (SearchView.Repr "RFC 2119")) (Some "JSON_REPR"%string))
     (SearchView.Repr "RFC 2119")
   = SearchView.Raises SearchView.AttributeError).
Proof.
  apply (handler_found_iff_format_spelled_exactly SearchView.lower_ascii
           (fun s => s) (fun s => s) json_loads_example
           SearchView.parsed_query (fun q => q) (fun q => q)
           fresh_view _
           (request_of (Some "RFC 2119"%string) (Some "JSON_REPR"%string)) no_kwargs).
  - vm_compute. reflexivity.
  - reflexivity.
Defined.

Lemma json_repr_query_reaches_its_handler_witness :
  exists self',
    SearchView.dispatch_parse_query SearchView.lower_ascii (fun s => s) (fun s => s)
      json_loads_example fresh_view (request_of (Some "RFC 2119"%string) None) no_kwargs
    = (self', SearchView.Returns tt) /\
    SearchView.query self' = Some (SearchView.Repr "RFC 2119") /\
    SearchView.dispatch_handle_query SearchView.parsed_query (fun q => q) (fun q => q)
      self' (SearchView.Repr "RFC 2119")
    = SearchView.Returns (SearchView.Repr "RFC 2119").
Proof.
  apply (json_repr_query_reaches_its_handler SearchView.lower_ascii
           (fun s => s) (fun s => s) json_loads_example
           SearchView.parsed_query (fun q => q) (fun q => q)
           fresh_view (request_of (Some "RFC 2119"%string) None) no_kwargs
           "R"%char "FC 2119"%string).
  - vm_compute. reflexivity.
  - vm_compute. reflexivity.
  - vm_compute. reflexivity.
Defined.
